(** * ProgressPoint backend: profile statistics and streak engine

    A shallow embedding of [src/me/me.controller.ts] (the [me] handler of
    [GET /me]).  The two helpers it imports from [src/me/utils.ts],
    [uniqueSortedDateKeys] and [computeStreakFromWorkouts], are not among
    the sources; module [Utils] models them from the specification.
    The second part embeds [src/workout/workout.controller.ts]
    ([createWorkout], [getWorkout], [deleteWorkout]) over explicit tables,
    each handler returning its reply and, where it writes, the new tables.

    Conventions of the embedding.
    - The three Prisma queries of the handler are its inputs: the fetched
      [user], the fetched [workouts] (in the order the query returned them)
      and the exercise table searched by [findUnique].  The [catch] branch
      (status 500) is taken only when a query throws, which inputs do not.
    - The mutable locals of the handler ([totalSets], [totalReps],
      [totalVolume], [heaviestWeight], [exerciseFrequency]) are the fields of
      one accumulator record threaded through the nested [forEach] loops.
    - Integer columns ([durationMinutes], [repetitions]) and every count are
      [Z].  The [weight] column is a JavaScript [number]; the arithmetic the
      handler performs on it ([+], [*], [>]) is the interface [Number], with
      two instances: IEEE binary64 (what the handler computes with) and
      exact integers.  The two agree while every value is a natural number
      below 2^53: lemma [profile_binary64] shows that the binary64 handler
      then answers with the image of what the integer instance computes.
      Statements about weights, volumes and the heaviest weight are made
      for the binary64 instance.
    - A JavaScript [Map] is an association list in insertion order; a
      JavaScript [Set] of strings is a [gset string]. *)

From Stdlib Require Import ZArith Floats Numbers.Cyclic.Int63.Uint63.
From stdpp Require Import base decidable option numbers list sorting gmap strings.

Local Open Scope Z_scope.

(** * Numbers *)

(** The operations the handler applies to [weight]-valued numbers. *)
Class Number (W : Type) := {
  num_of_int : Z -> W;        (* an integer literal or integer column *)
  num_add : W -> W -> W;      (* a + b *)
  num_mul : W -> W -> W;      (* a * b *)
  num_gt : W -> W -> bool     (* a > b *)
}.

(** Integer to binary64, for magnitudes below 2^63 (the integer columns are
    32-bit). *)
Definition float_of_Z (z : Z) : float :=
  match z with
  | Z0 => PrimFloat.of_uint63 0%uint63
  | Zpos _ => PrimFloat.of_uint63 (Uint63.of_Z z)
  | Zneg p => PrimFloat.opp (PrimFloat.of_uint63 (Uint63.of_Z (Zpos p)))
  end.

(** IEEE binary64: the arithmetic of a JavaScript [number]. *)
#[export] Instance float_Number : Number float := {
  num_of_int := float_of_Z;
  num_add := PrimFloat.add;
  num_mul := PrimFloat.mul;
  num_gt a b := PrimFloat.ltb b a
}.

(** Exact integers: integer-valued weights.  Binary64 computes the same
    values as long as the weights, the repetition counts and the exact
    total volume are natural numbers below 2^53 (lemmas [add_exact],
    [mul_exact], [ltb_exact] and [profile_binary64]); beyond that bound
    binary64 rounds and this instance does not describe the handler. *)
#[export] Instance Z_Number : Number Z := {
  num_of_int z := z;
  num_add := Z.add;
  num_mul := Z.mul;
  num_gt := Z.gtb
}.

(** * Data model: the shape selected by [prisma.workout.findMany] *)

Record SetRecord (W : Type) := {
  repetitions : Z;
  weight : W
}.
Arguments repetitions {W} _.
Arguments weight {W} _.

Record WorkoutExercise (W : Type) := {
  exerciseId : string;
  sets : list (SetRecord W)
}.
Arguments exerciseId {W} _.
Arguments sets {W} _.

Record Workout (W : Type) := {
  workout_id : string;
  startedAt : Z;                       (* instant, milliseconds since the epoch *)
  durationMinutes : option Z;          (* nullable column *)
  workoutExercises : list (WorkoutExercise W)
}.
Arguments workout_id {W} _.
Arguments startedAt {W} _.
Arguments durationMinutes {W} _.
Arguments workoutExercises {W} _.

(** The row selected by [prisma.exercise.findUnique]. *)
Record Exercise := {
  ex_id : string;
  ex_name : string;
  ex_category : string
}.

(** The row selected by [prisma.user.findUnique]. *)
Record User := {
  user_id : string;
  email : string;
  username : string;
  createdAt : Z
}.

(** The object [{ startedAt: w.startedAt }] handed to the streak helpers. *)
Record WorkoutLite := { lite_startedAt : Z }.

(** * Day keys and the streak ([src/me/utils.ts]) *)

Module Utils.

(** Modelled from the spec: a DayKey is "a calendar-date identity (year,
    month, day)"; it is represented by the number of days since the epoch
    in the reference time zone, so that "one day earlier" is [d - 1]. *)
Definition DayKey := Z.

Definition msPerDay : Z := 86400000.

Section DayKeys.

(** Offset of the single reference time zone from UTC, in milliseconds. *)
Variable tzOffset : Z.

(** Modelled from the spec: [src/me/utils.ts] is not among the sources, so
    the truncation of a start timestamp to its calendar day follows the
    data model of the specification ("a calendar-date identity derived by
    truncating a start timestamp to day granularity in a single reference
    time zone"). *)
Definition dayKey (instant : Z) : DayKey := (instant + tzOffset) `div` msPerDay.

(** Modelled from the spec: [uniqueSortedDateKeys] of [src/me/utils.ts] is
    not among the sources; following section 4.1 of the specification it
    maps every start timestamp to its day key, removes duplicates and sorts
    most recent first. *)
Definition uniqueSortedDateKeys (workouts : list WorkoutLite) : list DayKey :=
  merge_sort Z.ge (remove_dups (map (fun w => dayKey (lite_startedAt w)) workouts)).

(** Modelled from the spec: step 3 of the streak algorithm, the walk below
    the most recent day.  [expected] is the running "expected previous day";
    each day equal to it is counted and moves it one day back, the first
    other day ends the walk. *)
Fixpoint countChain (expected : DayKey) (rest : list DayKey) : Z :=
  match rest with
  | [] => 0
  | d :: rest' =>
      if d =? expected then 1 + countChain (expected - 1) rest' else 0
  end.

(** Modelled from the spec: steps 1 to 4 of the streak algorithm of
    section 4.2, on a day-key sequence and the day of the reference clock. *)
Definition streakOfDays (today : DayKey) (days : list DayKey) : Z :=
  match days with
  | [] => 0
  | mostRecent :: rest =>
      if (mostRecent =? today) || (mostRecent =? today - 1)
      then 1 + countChain (mostRecent - 1) rest
      else 0
  end.

(** Modelled from the spec: [computeStreakFromWorkouts] of
    [src/me/utils.ts] is not among the sources; it normalizes the workouts
    to day keys (section 4.1) and runs the streak algorithm (section 4.2)
    against the reference clock [now], read once. *)
Definition computeStreakFromWorkouts (now : Z) (workouts : list WorkoutLite) : Z :=
  streakOfDays (dayKey now) (uniqueSortedDateKeys workouts).

End DayKeys.

End Utils.

(** * The handler ([src/me/me.controller.ts]) *)

(** ** [exerciseFrequency]: a [Map<string, number>] in insertion order *)

Definition FreqMap := list (string * Z).

(** [m.get(k)]: [None] is [undefined]. *)
Fixpoint map_get (m : FreqMap) (k : string) : option Z :=
  match m with
  | [] => None
  | (k', v) :: m' => if decide (k = k') then Some v else map_get m' k
  end.

(** [m.set(k, v)]: an existing key keeps its place, a new key goes last. *)
Fixpoint map_set (m : FreqMap) (k : string) (v : Z) : FreqMap :=
  match m with
  | [] => [(k, v)]
  | (k', v') :: m' =>
      if decide (k = k') then (k, v) :: m' else (k', v') :: map_set m' k v
  end.

(** [x || 0] on a [number | undefined]: [undefined] and [0] are falsy. *)
Definition or_zero (x : option Z) : Z :=
  match x with
  | Some c => if c =? 0 then 0 else c
  | None => 0
  end.

(** The body of [exerciseFrequency.forEach]: the state is
    [(favoriteExerciseId, maxFrequency)]. *)
Definition favoriteStep (st : option string * Z) (entry : string * Z)
  : option string * Z :=
  let '(exId, count) := entry in
  if count >? snd st then (Some exId, count) else st.

Definition pickFavorite (freq : FreqMap) : option string * Z :=
  fold_left favoriteStep freq (None, 0).

(** [if (favoriteExerciseId)]: [null] and the empty string are falsy. *)
Definition truthy_id (fid : option string) : option string :=
  match fid with
  | Some s => if decide (s = EmptyString) then None else Some s
  | None => None
  end.

(** [prisma.exercise.findUnique({ where: { id } })] over the exercise table. *)
Definition findUnique (exercises : list Exercise) (key : string) : option Exercise :=
  find (fun e => bool_decide (ex_id e = key)) exercises.

Section Handler.

Context {W : Type} `{Number W}.

(** The locals declared at lines 71 to 77 of the handler. *)
Record Acc := {
  acc_totalSets : Z;
  acc_totalReps : Z;
  acc_totalVolume : W;
  acc_heaviestWeight : W;
  acc_exerciseFrequency : FreqMap
}.

Definition acc_init : Acc := {|
  acc_totalSets := 0;
  acc_totalReps := 0;
  acc_totalVolume := num_of_int 0;
  acc_heaviestWeight := num_of_int 0;
  acc_exerciseFrequency := []
|}.

(** The body of [we.sets.forEach(s => ...)]. *)
Definition setStep (acc : Acc) (s : SetRecord W) : Acc := {|
  acc_totalSets := acc_totalSets acc;
  acc_totalReps := acc_totalReps acc + repetitions s;
  acc_totalVolume :=
    num_add (acc_totalVolume acc) (num_mul (num_of_int (repetitions s)) (weight s));
  acc_heaviestWeight :=
    if num_gt (weight s) (acc_heaviestWeight acc)
    then weight s else acc_heaviestWeight acc;
  acc_exerciseFrequency := acc_exerciseFrequency acc
|}.

(** The body of [w.workoutExercises.forEach(we => ...)]. *)
Definition exerciseStep (acc : Acc) (we : WorkoutExercise W) : Acc :=
  fold_left setStep (sets we) {|
    acc_totalSets := acc_totalSets acc + Z.of_nat (length (sets we));
    acc_totalReps := acc_totalReps acc;
    acc_totalVolume := acc_totalVolume acc;
    acc_heaviestWeight := acc_heaviestWeight acc;
    acc_exerciseFrequency :=
      map_set (acc_exerciseFrequency acc) (exerciseId we)
        (or_zero (map_get (acc_exerciseFrequency acc) (exerciseId we)) + 1)
  |}.

(** The body of the second [workouts.forEach(w => ...)]. *)
Definition workoutStep (acc : Acc) (w : Workout W) : Acc :=
  fold_left exerciseStep (workoutExercises w) acc.

Definition aggregate (workouts : list (Workout W)) : Acc :=
  fold_left workoutStep workouts acc_init.

(** Lines 101 to 110: [favoriteExerciseId] after the [forEach] over the
    frequency map. *)
Definition favoriteExerciseId (workouts : list (Workout W)) : option string :=
  fst (pickFavorite (acc_exerciseFrequency (aggregate workouts))).

(** [workouts.reduce((acc, w) => acc + (w.durationMinutes ?? 0), 0)]. *)
Definition sumDuration (workouts : list (Workout W)) : Z :=
  fold_left (fun acc w => acc + default 0 (durationMinutes w)) workouts 0.

(** The first [workouts.forEach]: the set of exercise identifiers. *)
Definition collectExerciseIds (workouts : list (Workout W)) : gset string :=
  fold_left
    (fun ids w =>
       fold_left (fun ids' we => {[exerciseId we]} ∪ ids') (workoutExercises w) ids)
    workouts ∅.

(** The JSON body of the 200 response. *)
Record Profile := {
  user : option User;
  totalWorkouts : Z;
  currentStreak : Z;
  days : list Utils.DayKey;
  lastWorkoutDate : option Utils.DayKey;
  totalDuration : Z;
  totalExercisesUsed : Z;
  totalSets : Z;
  totalReps : Z;
  totalVolume : W;
  heaviestWeight : W;
  favoriteExercise : option Exercise
}.

Inductive Response :=
| Status401        (* { error: "Unauthorized" } *)
| Json200 (body : Profile).

(** The statistics part of the handler, lines 45 to 137.  [tzOffset] and
    [now] are the time zone and clock the streak helpers read; [exercises]
    is the table behind [findUnique]. *)
Definition profile (tzOffset now : Z) (exercises : list Exercise)
    (fetchedUser : option User) (workouts : list (Workout W)) : Profile :=
  let streakWorkoutsLite := map (fun w => {| lite_startedAt := startedAt w |}) workouts in
  let dayKeys := Utils.uniqueSortedDateKeys tzOffset streakWorkoutsLite in
  let acc := aggregate workouts in
  {|
    user := fetchedUser;
    totalWorkouts := Z.of_nat (length workouts);
    currentStreak := Utils.computeStreakFromWorkouts tzOffset now streakWorkoutsLite;
    days := dayKeys;
    lastWorkoutDate := head dayKeys;
    totalDuration := sumDuration workouts;
    totalExercisesUsed := Z.of_nat (size (collectExerciseIds workouts));
    totalSets := acc_totalSets acc;
    totalReps := acc_totalReps acc;
    totalVolume := acc_totalVolume acc;
    heaviestWeight := acc_heaviestWeight acc;
    favoriteExercise :=
      match truthy_id (favoriteExerciseId workouts) with
      | Some fid => findUnique exercises fid
      | None => None
      end
  |}.

(** The handler: [req.user] is the authenticated user id, if any; a missing
    or empty id is answered with 401 before anything is computed. *)
Definition me (tzOffset now : Z) (exercises : list Exercise)
    (reqUser : option string) (fetchedUser : option User)
    (workouts : list (Workout W)) : Response :=
  match truthy_id reqUser with
  | None => Status401
  | Some _ => Json200 (profile tzOffset now exercises fetchedUser workouts)
  end.

End Handler.

Arguments Acc W : clear implicits.
Arguments Profile W : clear implicits.
Arguments Response W : clear implicits.

(** * Vocabulary of the statements *)

Section Vocabulary.

Context {W : Type} `{Number W}.

(** Every WorkoutExerciseRecord of the history, in the order the handler
    visits them. *)
Definition allExercises (workouts : list (Workout W)) : list (WorkoutExercise W) :=
  flat_map workoutExercises workouts.

(** Every SetRecord of the history, in the order the handler visits them. *)
Definition allSets (workouts : list (Workout W)) : list (SetRecord W) :=
  flat_map sets (allExercises workouts).

(** The exercise identifiers in the order they are encountered, one entry
    per WorkoutExerciseRecord. *)
Definition exerciseIdsInOrder (workouts : list (Workout W)) : list string :=
  map exerciseId (allExercises workouts).

(** What one set adds to [totalReps], [totalVolume] and [heaviestWeight],
    and what one WorkoutExerciseRecord adds to [totalSets] and to the
    frequency map. *)
Definition repsStep (r : Z) (s : SetRecord W) : Z := r + repetitions s.

Definition volumeStep (v : W) (s : SetRecord W) : W :=
  num_add v (num_mul (num_of_int (repetitions s)) (weight s)).

Definition heaviestStep (h : W) (s : SetRecord W) : W :=
  if num_gt (weight s) h then weight s else h.

Definition setCountStep (n : Z) (we : WorkoutExercise W) : Z :=
  n + Z.of_nat (length (sets we)).

(** Two WorkoutExerciseRecords that differ only in the order of their sets. *)
Definition setsReordered (we we' : WorkoutExercise W) : Prop :=
  exerciseId we = exerciseId we' /\ sets we ≡ₚ sets we'.

(** Two WorkoutRecords that differ only in the order of the sets within
    each exercise and in the order of the exercises. *)
Definition innerReordered (w w' : Workout W) : Prop :=
  workout_id w = workout_id w' /\
  startedAt w = startedAt w' /\
  durationMinutes w = durationMinutes w' /\
  exists wes, Forall2 setsReordered (workoutExercises w) wes /\
              wes ≡ₚ workoutExercises w'.

End Vocabulary.

(** What one encountered identifier does to the frequency map. *)
Definition frequencyStep (m : FreqMap) (eid : string) : FreqMap :=
  map_set m eid (or_zero (map_get m eid) + 1).

(** How often an identifier occurs in a sequence of identifiers. *)
Definition frequency (ids : list string) (e : string) : Z :=
  Z.of_nat (length (filter (fun x => x = e) ids)).

(** What the frequency map holds once the identifiers [ids] have been
    counted: every identifier with its number of occurrences, once, in the
    order of first occurrence. *)
Definition counted (ids : list string) (m : FreqMap) : Prop :=
  (forall k, map_get m k = if decide (k ∈ ids) then Some (frequency ids k) else None) /\
  NoDup m.*1 /\
  (forall k, k ∈ m.*1 <-> k ∈ ids) /\
  (forall ks1 k ks2, m.*1 = ks1 ++ k :: ks2 ->
     exists before after,
       ids = before ++ k :: after /\ (k ∉ before) /\ forall x, x ∈ before -> x ∈ ks1).

(** ** Concrete histories *)

Module Examples.

#[local] Set Warnings "-inexact-float".

Definition oneSet {W} (reps : Z) (w : W) : SetRecord W :=
  {| repetitions := reps; weight := w |}.

Definition oneExercise {W} (eid : string) (ss : list (SetRecord W)) : WorkoutExercise W :=
  {| exerciseId := eid; sets := ss |}.

Definition workoutAt {W} (wid : string) (t : Z) (wes : list (WorkoutExercise W)) : Workout W :=
  {| workout_id := wid; startedAt := t; durationMinutes := Some 60;
     workoutExercises := wes |}.

(** One workout, one exercise, three single-repetition sets of 0.1, 0.2 and
    0.3, and the same workout with the sets in the opposite order. *)
Definition fractional : list (Workout float) :=
  [workoutAt "w1" 0 [oneExercise "bench"
     [oneSet 1 0.1%float; oneSet 1 0.2%float; oneSet 1 0.3%float]]].

Definition fractionalReversed : list (Workout float) :=
  [workoutAt "w1" 0 [oneExercise "bench"
     [oneSet 1 0.3%float; oneSet 1 0.2%float; oneSet 1 0.1%float]]].



(** A workout with integer weights, and the same workout with its
    exercises swapped and the sets of the bench press reversed. *)
Definition integral : list (Workout Z) :=
  [workoutAt "w1" 0
     [oneExercise "bench" [oneSet 10 50; oneSet 8 55];
      oneExercise "squat" [oneSet 12 80]]].

Definition integralReordered : list (Workout Z) :=
  [workoutAt "w1" 0
     [oneExercise "squat" [oneSet 12 80];
      oneExercise "bench" [oneSet 8 55; oneSet 10 50]]].

(** Integer weights out of the range in which binary64 is exact: one set
    of 2^53 and two of 1, and the same sets with the heavy one last. *)
Definition large : list (Workout Z) :=
  [workoutAt "w1" 0 [oneExercise "bench"
     [oneSet 1 9007199254740992; oneSet 1 1; oneSet 1 1]]].

Definition largeReordered : list (Workout Z) :=
  [workoutAt "w1" 0 [oneExercise "bench"
     [oneSet 1 1; oneSet 1 1; oneSet 1 9007199254740992]]].

(** Two workouts with integer weights. *)
Definition twoWorkouts : list (Workout Z) :=
  [workoutAt "w2" 86400000 [oneExercise "squat" [oneSet 12 80]];
   workoutAt "w1" 0 [oneExercise "bench" [oneSet 10 50; oneSet 8 55]]].


(** The example of the specification: three workouts, on today, today and
    yesterday, with one set each. *)
Definition threeSets (wid1 wid2 wid3 e1 e2 e3 : string) (t1 t2 t3 : Z)
    (d1 d2 d3 : option Z) : list (Workout float) :=
  [ {| workout_id := wid1; startedAt := t1; durationMinutes := d1;
       workoutExercises := [oneExercise e1 [oneSet 10 50%float]] |};
    {| workout_id := wid2; startedAt := t2; durationMinutes := d2;
       workoutExercises := [oneExercise e2 [oneSet 8 55%float]] |};
    {| workout_id := wid3; startedAt := t3; durationMinutes := d3;
       workoutExercises := [oneExercise e3 [oneSet 12 80%float]] |} ].

End Examples.

(** * The workout controller ([src/workout/workout.controller.ts]) *)

(** ** The tables

    A workout row carries its exercise rows and these their set rows, as
    Prisma's nested [create] writes them and [include] reads them back;
    deleting a workout removes them with it. *)

Record SetRow (W : Type) := {
  row_setNumber : Z;
  row_repetitions : Z;
  row_weight : W
}.
Arguments row_setNumber {W} _.
Arguments row_repetitions {W} _.
Arguments row_weight {W} _.

Record WorkoutExerciseRow (W : Type) := {
  row_exerciseId : string;
  row_order : Z;
  row_sets : list (SetRow W)
}.
Arguments row_exerciseId {W} _.
Arguments row_order {W} _.
Arguments row_sets {W} _.

Record WorkoutRow (W : Type) := {
  row_id : string;
  row_userId : string;
  row_startedAt : Z;
  row_durationMinutes : option Z;
  row_note : option string;
  row_workoutExercises : list (WorkoutExerciseRow W)
}.
Arguments row_id {W} _.
Arguments row_userId {W} _.
Arguments row_startedAt {W} _.
Arguments row_durationMinutes {W} _.
Arguments row_note {W} _.
Arguments row_workoutExercises {W} _.

Record Db (W : Type) := {
  db_users : list User;
  db_exercises : list Exercise;
  db_workouts : list (WorkoutRow W)
}.
Arguments db_users {W} _.
Arguments db_exercises {W} _.
Arguments db_workouts {W} _.

(** The request body of [POST /workout] ([CreateWorkoutBody]); a missing
    property is [None]. *)
Record CreateWorkoutBody (W : Type) := {
  body_durationMinutes : option Z;
  body_note : option string;
  body_exercises : option (list (WorkoutExerciseRow W))
}.
Arguments body_durationMinutes {W} _.
Arguments body_note {W} _.
Arguments body_exercises {W} _.

(** The pagination object of [GET /workout]. *)
Record Pagination := {
  currentPage : Z;
  totalPages : Z;
  pg_totalWorkouts : Z;
  pg_limit : Z;
  hasNextPage : bool;
  hasPreviousPage : bool
}.

(** A workout as [GET /workout] returns it: the row with its exercises in
    ascending [order] and their sets in ascending [setNumber], the owner's
    [(id, username)] and, for each exercise row, the joined exercise. *)
Record WorkoutView (W : Type) := {
  view_row : WorkoutRow W;
  view_user : option (string * string);
  view_exercises : list (option Exercise)
}.
Arguments view_row {W} _.
Arguments view_user {W} _.
Arguments view_exercises {W} _.

Inductive CreateReply (W : Type) :=
| Create401                           (* { message: "Unauthorized" } *)
| Create400 (message : string)
| Create201 (workout : WorkoutRow W) (joined : list (option (string * string))).
Arguments Create401 {W}.
Arguments Create400 {W} _.
Arguments Create201 {W} _ _.

Inductive GetReply (W : Type) :=
| Get401
| Get400 (message : string)
| Get200 (workouts : list (WorkoutView W)) (pagination : Pagination).
Arguments Get401 {W}.
Arguments Get400 {W} _.
Arguments Get200 {W} _ _.

Inductive DeleteReply :=
| Delete401
| Delete400 (message : string)
| Delete404 (message : string)
| Delete200 (message : string).

(** [orderBy: { startedAt: "desc" }], [{ order: "asc" }] and
    [{ setNumber: "asc" }]. *)
Definition startedAtDesc {W} (a b : WorkoutRow W) : Prop :=
  row_startedAt a >= row_startedAt b.

Definition orderAsc {W} (a b : WorkoutExerciseRow W) : Prop :=
  row_order a <= row_order b.

Definition setNumberAsc {W} (a b : SetRow W) : Prop :=
  row_setNumber a <= row_setNumber b.

#[export] Instance startedAtDesc_dec {W} : RelDecision (@startedAtDesc W) :=
  fun a b => Z_ge_dec (row_startedAt a) (row_startedAt b).

#[export] Instance orderAsc_dec {W} : RelDecision (@orderAsc W) :=
  fun a b => Z_le_dec (row_order a) (row_order b).

#[export] Instance setNumberAsc_dec {W} : RelDecision (@setNumberAsc W) :=
  fun a b => Z_le_dec (row_setNumber a) (row_setNumber b).

(** [Math.ceil(a / b)] on a count [a] and a limit [b] between 1 and 100:
    the quotient of two such integers is either an integer or at least
    1/100 away from one, so the binary64 division does not disturb the
    ceiling. *)
Definition ceilDiv (a b : Z) : Z := (a + b - 1) `div` b.

Section WorkoutController.

Context {W : Type} {numW : Number W}.

(** [prisma.workout.findMany({ where: { userId }, orderBy: { startedAt: "desc" } })].
    Rows with the same [startedAt] come in one fixed order here; the
    database leaves their order open. *)
Definition workoutsOf (db : Db W) (userId : string) : list (WorkoutRow W) :=
  merge_sort startedAtDesc (filter (fun r => row_userId r = userId) (db_workouts db)).

(** [prisma.workout.findUnique({ where: { id } })]. *)
Definition findWorkout (db : Db W) (key : string) : option (WorkoutRow W) :=
  find (fun r => bool_decide (row_id r = key)) (db_workouts db).

(** [prisma.user.findUnique({ where: { id } })]. *)
Definition findUser (db : Db W) (key : string) : option User :=
  find (fun u => bool_decide (user_id u = key)) (db_users db).

(** *** [createWorkout] *)

(** The nested [for ... of] loops of the validation: some set has a
    negative repetition count or a negative weight. *)
Definition hasNegativeSet (exercises : list (WorkoutExerciseRow W)) : bool :=
  existsb
    (fun exercise =>
       existsb
         (fun set => (row_repetitions set <? 0) || num_gt (num_of_int 0) (row_weight set))
         (row_sets exercise))
    exercises.

(** [prisma.exercise.findMany({ where: { id: { in: exerciseIds } } })]. *)
Definition existingExercises (table : list Exercise) (exerciseIds : list string)
  : list Exercise :=
  filter (fun e => ex_id e ∈ exerciseIds) table.

(** The handler of [POST /workout].  [now] is the server clock read by
    [new Date()] and [newId] the identifier the database generates for the
    new row. *)
Definition createWorkout (db : Db W) (reqUser : option string)
    (body : CreateWorkoutBody W) (now : Z) (newId : string)
  : CreateReply W * Db W :=
  match truthy_id reqUser with
  | None => (Create401, db)
  | Some userId =>
      match body_durationMinutes body, body_exercises body with
      | Some durationMinutes, Some exercises =>
          if (durationMinutes =? 0) || bool_decide (exercises = [])
          then (Create400 "Missing required fields", db)
          else if durationMinutes <? 0
          then (Create400 "Duration must not be negative", db)
          else if hasNegativeSet exercises
          then (Create400 "Repetitions and weight must not be negative", db)
          else
            let exerciseIds := map row_exerciseId exercises in
            if negb (length (existingExercises (db_exercises db) exerciseIds)
                       =? length exerciseIds)%nat
            then (Create400 "one or more exercises not found", db)
            else
              let workout := {|
                row_id := newId;
                row_userId := userId;
                row_startedAt := now;
                row_durationMinutes := Some durationMinutes;
                row_note := body_note body;
                row_workoutExercises := exercises
              |} in
              (Create201 workout
                 (map (fun we =>
                         (fun e => (ex_id e, ex_name e))
                           <$> findUnique (db_exercises db) (row_exerciseId we))
                    exercises),
               {| db_users := db_users db;
                  db_exercises := db_exercises db;
                  db_workouts := db_workouts db ++ [workout] |})
      | _, _ => (Create400 "Missing required fields", db)
      end
  end.

(** What makes [createWorkout] accept a request. *)
Definition acceptable (db : Db W) (reqUser : option string) (body : CreateWorkoutBody W)
  : Prop :=
  exists userId d exercises,
    reqUser = Some userId /\ userId <> EmptyString /\
    body_durationMinutes body = Some d /\ 0 < d /\
    body_exercises body = Some exercises /\ exercises <> [] /\
    Forall (fun we =>
              Forall (fun s => 0 <= row_repetitions s /\
                               num_gt (num_of_int 0) (row_weight s) = false)
                (row_sets we))
      exercises /\
    NoDup (map row_exerciseId exercises) /\
    Forall (fun we => exists e, e ∈ db_exercises db /\ ex_id e = row_exerciseId we)
      exercises.

(** *** [getWorkout] *)

(** The [include] of the query: nested rows in their requested order and
    the joined user and exercises. *)
Definition viewOf (db : Db W) (r : WorkoutRow W) : WorkoutView W :=
  let wes :=
    map (fun we => {|
           row_exerciseId := row_exerciseId we;
           row_order := row_order we;
           row_sets := merge_sort setNumberAsc (row_sets we)
         |})
      (merge_sort orderAsc (row_workoutExercises r)) in
  {|
    view_row := {|
      row_id := row_id r;
      row_userId := row_userId r;
      row_startedAt := row_startedAt r;
      row_durationMinutes := row_durationMinutes r;
      row_note := row_note r;
      row_workoutExercises := wes
    |};
    view_user := (fun u => (user_id u, username u)) <$> findUser db (row_userId r);
    view_exercises :=
      map (fun we => findUnique (db_exercises db) (row_exerciseId we)) wes
  |}.

(** The handler of [GET /workout].  [parsedPage] and [parsedLimit] are the
    results of the two [parseInt] calls: an integer, or [None] for [NaN]. *)
Definition getWorkout (db : Db W) (reqUser : option string)
    (parsedPage parsedLimit : option Z) : GetReply W :=
  match truthy_id reqUser with
  | None => Get401
  | Some userId =>
      let page := default 1 parsedPage in
      let limit := default 10 parsedLimit in
      if page <? 1 then Get400 "Page must be at least 1"
      else if (limit <? 1) || (limit >? 100)
      then Get400 "Limit must be between 1 and 100"
      else
        let skip := (page - 1) * limit in
        let total := Z.of_nat (length (filter (fun r => row_userId r = userId)
                                         (db_workouts db))) in
        let workouts :=
          take (Z.to_nat limit) (drop (Z.to_nat skip) (workoutsOf db userId)) in
        let pages := ceilDiv total limit in
        Get200 (map (viewOf db) workouts) {|
          currentPage := page;
          totalPages := pages;
          pg_totalWorkouts := total;
          pg_limit := limit;
          hasNextPage := page <? pages;
          hasPreviousPage := page >? 1
        |}
  end.

(** The [workouts] of a reply, none unless the reply is a 200. *)
Definition workoutsOfReply (reply : GetReply W) : list (WorkoutView W) :=
  match reply with
  | Get200 workouts _ => workouts
  | _ => []
  end.

(** *** [deleteWorkout] *)

(** The handler of [DELETE /workout]; [workoutId] is the property of the
    request body, [None] when missing. *)
Definition deleteWorkout (db : Db W) (reqUser : option string)
    (workoutId : option string) : DeleteReply * Db W :=
  match truthy_id reqUser with
  | None => (Delete401, db)
  | Some userId =>
      match truthy_id workoutId with
      | None => (Delete400 "Missing workoutId in request body", db)
      | Some wid =>
          match findWorkout db wid with
          | Some workout =>
              if bool_decide (row_userId workout = userId)
              then (Delete200 "Workout deleted successfully",
                    {| db_users := db_users db;
                       db_exercises := db_exercises db;
                       db_workouts :=
                         filter (fun r => row_id r <> wid) (db_workouts db) |})
              else (Delete404 "Workout not found", db)
          | None => (Delete404 "Workout not found", db)
          end
      end
  end.

(** *** [me] over the tables *)

(** The [select] of the profile query. *)
Definition selectForProfile (r : WorkoutRow W) : Workout W := {|
  workout_id := row_id r;
  startedAt := row_startedAt r;
  durationMinutes := row_durationMinutes r;
  workoutExercises :=
    map (fun we => {|
           exerciseId := row_exerciseId we;
           sets := map (fun s => {| repetitions := row_repetitions s;
                                    weight := row_weight s |})
                     (row_sets we)
         |})
      (row_workoutExercises r)
|}.

(** [GET /me] with its three queries run against the tables. *)
Definition meOnDb (tzOffset now : Z) (db : Db W) (reqUser : option string)
  : Response W :=
  let userId := default EmptyString reqUser in
  me tzOffset now (db_exercises db) reqUser (findUser db userId)
    (map selectForProfile (workoutsOf db userId)).

(** ** Sequences of requests *)

Inductive Request :=
| PostWorkout (reqUser : option string) (body : CreateWorkoutBody W) (now : Z)
    (newId : string)
| DeleteWorkout (reqUser : option string) (workoutId : option string).

(** The user a request is made for. *)
Definition requester (req : Request) : option string :=
  match req with
  | PostWorkout reqUser _ _ _ => reqUser
  | DeleteWorkout reqUser _ => reqUser
  end.

(** The tables after a request. *)
Definition after (db : Db W) (req : Request) : Db W :=
  match req with
  | PostWorkout reqUser body now newId => snd (createWorkout db reqUser body now newId)
  | DeleteWorkout reqUser workoutId => snd (deleteWorkout db reqUser workoutId)
  end.

(** The database never generates an identifier that is in use. *)
Definition freshIn (db : Db W) (req : Request) : Prop :=
  match req with
  | PostWorkout _ _ _ newId => newId ∉ map row_id (db_workouts db)
  | DeleteWorkout _ _ => True
  end.

(** The tables reachable from [db0] by workout requests. *)
Inductive reachable (db0 : Db W) : Db W -> Prop :=
| reachable_start : reachable db0 db0
| reachable_request db req :
    reachable db0 db -> freshIn db req -> reachable db0 (after db req).

(** What every stored workout satisfies once it came in through
    [createWorkout]. *)
Definition wellFormedRow (table : list Exercise) (r : WorkoutRow W) : Prop :=
  (exists d, row_durationMinutes r = Some d /\ 0 < d) /\
  row_workoutExercises r <> [] /\
  Forall (fun we =>
            Forall (fun s => 0 <= row_repetitions s /\
                             num_gt (num_of_int 0) (row_weight s) = false)
              (row_sets we))
    (row_workoutExercises r) /\
  NoDup (map row_exerciseId (row_workoutExercises r)) /\
  Forall (fun we => exists e, e ∈ table /\ ex_id e = row_exerciseId we)
    (row_workoutExercises r).

End WorkoutController.

Arguments Request W : clear implicits.

(** ** Concrete tables and requests *)

Module Requests.

Definition exerciseTable : list Exercise :=
  [ {| ex_id := "e1"; ex_name := "Bench Press"; ex_category := "chest" |};
    {| ex_id := "e2"; ex_name := "Squat"; ex_category := "legs" |} ].

Definition userTable : list User :=
  [ {| user_id := "u1"; email := "workout@test.com"; username := "workoutuser";
       createdAt := 0 |};
    {| user_id := "u2"; email := "user2@test.com"; username := "user2";
       createdAt := 0 |} ].

(** The tables before any workout is stored. *)
Definition noWorkouts : Db Z :=
  {| db_users := userTable; db_exercises := exerciseTable; db_workouts := [] |}.

(** The body of the first test of [POST /workout]. *)
Definition benchAndSquat : CreateWorkoutBody Z :=
  {| body_durationMinutes := Some 60;
     body_note := Some "Great workout today!";
     body_exercises := Some
       [ {| row_exerciseId := "e1"; row_order := 1;
            row_sets := [ {| row_setNumber := 1; row_repetitions := 10; row_weight := 100 |};
                          {| row_setNumber := 2; row_repetitions := 8; row_weight := 110 |} ] |};
         {| row_exerciseId := "e2"; row_order := 2;
            row_sets := [ {| row_setNumber := 1; row_repetitions := 12; row_weight := 80 |} ] |} ] |}.

(** The same body with a duration of 0. *)
Definition zeroDuration : CreateWorkoutBody Z :=
  {| body_durationMinutes := Some 0;
     body_note := body_note benchAndSquat;
     body_exercises := body_exercises benchAndSquat |}.

(** The tables after user [u1] stored one workout, and after user [u2]
    stored one as well. *)
Definition oneWorkout : Db Z :=
  snd (createWorkout noWorkouts (Some "u1") benchAndSquat 1000 "w1").

Definition twoUsers : Db Z :=
  snd (createWorkout oneWorkout (Some "u2") benchAndSquat 2000 "w2").

(** The row stored for user [u2]. *)
Definition secondRow : WorkoutRow Z :=
  {| row_id := "w2"; row_userId := "u2"; row_startedAt := 2000;
     row_durationMinutes := Some 60; row_note := body_note benchAndSquat;
     row_workoutExercises := default [] (body_exercises benchAndSquat) |}.

(** The same body and tables with binary64 weights, as the server holds
    them; the second set of the bench press weighs 102.5. *)
Definition benchAndSquat64 : CreateWorkoutBody float :=
  {| body_durationMinutes := Some 60;
     body_note := Some "Great workout today!";
     body_exercises := Some
       [ {| row_exerciseId := "e1"; row_order := 1;
            row_sets := [ {| row_setNumber := 1; row_repetitions := 10; row_weight := 100%float |};
                          {| row_setNumber := 2; row_repetitions := 8; row_weight := 102.5%float |} ] |};
         {| row_exerciseId := "e2"; row_order := 2;
            row_sets := [ {| row_setNumber := 1; row_repetitions := 12; row_weight := 80%float |} ] |} ] |}.

Definition noWorkouts64 : Db float :=
  {| db_users := userTable; db_exercises := exerciseTable; db_workouts := [] |}.

Definition oneWorkout64 : Db float :=
  snd (createWorkout noWorkouts64 (Some "u1") benchAndSquat64 1000 "w1").

Definition twoUsers64 : Db float :=
  snd (createWorkout oneWorkout64 (Some "u2") benchAndSquat64 2000 "w2").

End Requests.

(** The sum of the counts held by a frequency map. *)
Definition sumCounts (m : FreqMap) : Z := foldr (fun e acc => e.2 + acc) 0 m.

(** The sum of a list of integers. *)
Definition sumZ (l : list Z) : Z := foldr Z.add 0 l.

(** ** Integer-valued histories in binary64 *)

(** The binary64 representation of a positive integer below 2^53: sign,
    mantissa normalized to 53 bits, and exponent. *)
Definition canonical (s : bool) (N : Z) : spec_float :=
  S754_finite s (Z.to_pos (N * 2 ^ (52 - Z.log2 N))) (Z.log2 N - 52).

(** The binary64 representation of a natural number below 2^53. *)
Definition natSF (N : Z) : spec_float :=
  if N =? 0 then S754_zero false else canonical false N.

(** A history with integer weights as the handler receives it: every
    weight is the binary64 number of the same value. *)
Definition setToBinary64 (s : SetRecord Z) : SetRecord float :=
  {| repetitions := repetitions s; weight := float_of_Z (weight s) |}.

Definition exerciseToBinary64 (we : WorkoutExercise Z) : WorkoutExercise float :=
  {| exerciseId := exerciseId we; sets := map setToBinary64 (sets we) |}.

Definition toBinary64 (w : Workout Z) : Workout float :=
  {| workout_id := workout_id w;
     startedAt := startedAt w;
     durationMinutes := durationMinutes w;
     workoutExercises := map exerciseToBinary64 (workoutExercises w) |}.

(** The exact sum of repetitions times weight. *)
Definition exactVolume (ss : list (SetRecord Z)) : Z :=
  sumZ (map (fun s => repetitions s * weight s) ss).

(** An integer history on which binary64 does not round: no repetition
    count and no weight is negative or reaches 2^53, and the exact total
    volume stays below 2^53. *)
Definition withinBinary64 (zs : list (Workout Z)) : Prop :=
  Forall (fun s => 0 <= repetitions s < 2 ^ 53 /\ 0 <= weight s < 2 ^ 53) (allSets zs) /\
  exactVolume (allSets zs) < 2 ^ 53.

(** A binary64 history whose weights are such integers. *)
Definition integerValued (ws : list (Workout float)) : Prop :=
  exists zs, withinBinary64 zs /\ ws = map toBinary64 zs.

(** The reply over exact integers read as the binary64 reply. *)
Definition profileToBinary64 (p : Profile Z) : Profile float := {|
  user := user p;
  totalWorkouts := totalWorkouts p;
  currentStreak := currentStreak p;
  days := days p;
  lastWorkoutDate := lastWorkoutDate p;
  totalDuration := totalDuration p;
  totalExercisesUsed := totalExercisesUsed p;
  totalSets := totalSets p;
  totalReps := totalReps p;
  totalVolume := float_of_Z (totalVolume p);
  heaviestWeight := float_of_Z (heaviestWeight p);
  favoriteExercise := favoriteExercise p
|}.

(** * Properties *)

(** ** Day keys *)

Section DayKeyFacts.

Variable tzOffset : Z.

Abbreviation keysOf ws := (map (fun w => Utils.dayKey tzOffset (lite_startedAt w)) ws).

#[local] Instance Zge_total : Total Z.ge.
Proof. intros x y. lia. Qed.

#[local] Instance Zge_trans : Transitive Z.ge.
Proof. intros x y z. lia. Qed.

Lemma uniqueSortedDateKeys_perm (ws : list WorkoutLite) :
  Utils.uniqueSortedDateKeys tzOffset ws ≡ₚ remove_dups (keysOf ws).
Proof. apply merge_sort_Permutation. Qed.

Lemma uniqueSortedDateKeys_NoDup (ws : list WorkoutLite) :
  NoDup (Utils.uniqueSortedDateKeys tzOffset ws).
Proof. rewrite uniqueSortedDateKeys_perm. apply NoDup_remove_dups. Qed.

Lemma uniqueSortedDateKeys_elem (ws : list WorkoutLite) (k : Utils.DayKey) :
  k ∈ Utils.uniqueSortedDateKeys tzOffset ws <->
  exists w, w ∈ ws /\ Utils.dayKey tzOffset (lite_startedAt w) = k.
Proof.
  rewrite uniqueSortedDateKeys_perm, elem_of_remove_dups, list_elem_of_In, in_map_iff.
  split; intros (w & Hw1 & Hw2); exists w.
  - split; [by apply list_elem_of_In | done].
  - split; [done | by apply list_elem_of_In].
Qed.

(** A descending list without repetition descends strictly. *)
Lemma StronglySorted_ge_gt (l : list Z) :
  StronglySorted Z.ge l -> NoDup l -> StronglySorted Z.gt l.
Proof.
  induction 1 as [| x l Hl IH Hx]; intros Hnd; [constructor |].
  apply NoDup_cons in Hnd as [Hx' Hnd].
  constructor; [by apply IH |].
  rewrite Forall_forall in Hx |- *. intros y Hy.
  specialize (Hx y Hy).
  assert (x <> y) by (intros ->; done). lia.
Qed.

Lemma uniqueSortedDateKeys_descending (ws : list WorkoutLite) :
  StronglySorted Z.gt (Utils.uniqueSortedDateKeys tzOffset ws).
Proof.
  apply StronglySorted_ge_gt; [| apply uniqueSortedDateKeys_NoDup].
  apply (StronglySorted_merge_sort Z.ge).
Qed.

(** In a list without repetition a member occurs exactly once. *)
Lemma filter_eq_absent (l : list Z) (k : Z) :
  k ∉ l -> filter (fun x => x = k) l = [].
Proof.
  induction l as [| x l IH]; intros Hk; [done |].
  apply not_elem_of_cons in Hk as [Hne Hk].
  rewrite filter_cons_False by congruence. by apply IH.
Qed.

Lemma NoDup_filter_eq_length (l : list Z) (k : Z) :
  NoDup l -> k ∈ l -> length (filter (fun x => x = k) l) = 1%nat.
Proof.
  induction 1 as [| x l Hx Hnd IH]; intros Hk; [by apply elem_of_nil in Hk |].
  destruct (decide (x = k)) as [-> | Hne].
  - rewrite filter_cons_True by done. by rewrite filter_eq_absent.
  - rewrite filter_cons_False by done.
    apply elem_of_cons in Hk as [-> | Hk]; [done | by apply IH].
Qed.

(** Two strictly descending lists with the same members are equal. *)
Lemma StronglySorted_gt_unique (l1 l2 : list Z) :
  StronglySorted Z.gt l1 -> StronglySorted Z.gt l2 ->
  (forall x, x ∈ l1 <-> x ∈ l2) -> l1 = l2.
Proof.
  intros H1. revert l2.
  induction H1 as [| x l1 Hl1 IH Hx]; intros l2 H2 Hmem.
  - destruct l2 as [| y l2]; [done |].
    exfalso. apply (not_elem_of_nil y), Hmem. left.
  - destruct H2 as [| y l2 Hl2 Hy].
    { exfalso. apply (not_elem_of_nil x), Hmem. left. }
    rewrite Forall_forall in Hx, Hy.
    assert (x = y) as ->.
    { assert (Hxin : x ∈ y :: l2) by (apply Hmem; left).
      assert (Hyin : y ∈ x :: l1) by (apply Hmem; left).
      apply elem_of_cons in Hxin as [-> | Hxin]; [done |].
      apply elem_of_cons in Hyin as [-> | Hyin]; [done |].
      specialize (Hx _ Hyin). specialize (Hy _ Hxin). lia. }
    f_equal. apply IH; [done |].
    intros z. split; intros Hz.
    + assert (Hz' : z ∈ y :: l2) by (apply Hmem; by right).
      apply elem_of_cons in Hz' as [-> | Hz']; [| done].
      specialize (Hx _ Hz). lia.
    + assert (Hz' : z ∈ y :: l1) by (apply Hmem; by right).
      apply elem_of_cons in Hz' as [-> | Hz']; [| done].
      specialize (Hy _ Hz). lia.
Qed.

(** C3. For every collection of start timestamps the normalizer's output
    has no duplicate day key and is sorted strictly descending; it holds
    exactly the day keys of the input, so two timestamps of the same
    calendar day share one entry; the empty input yields the empty
    sequence. *)
Theorem uniqueSortedDateKeys_spec (ws : list WorkoutLite) :
  let out := Utils.uniqueSortedDateKeys tzOffset ws in
  NoDup out /\
  StronglySorted Z.gt out /\
  (forall k, k ∈ out <->
     exists w, w ∈ ws /\ Utils.dayKey tzOffset (lite_startedAt w) = k) /\
  (forall w1 w2, w1 ∈ ws -> w2 ∈ ws ->
     Utils.dayKey tzOffset (lite_startedAt w1) = Utils.dayKey tzOffset (lite_startedAt w2) ->
     length (filter (fun k => k = Utils.dayKey tzOffset (lite_startedAt w1)) out) = 1%nat) /\
  Utils.uniqueSortedDateKeys tzOffset [] = [].
Proof.
  cbv zeta. split; [apply uniqueSortedDateKeys_NoDup |].
  split; [apply uniqueSortedDateKeys_descending |].
  split; [apply uniqueSortedDateKeys_elem |].
  split; [| reflexivity].
  intros w1 w2 Hw1 _ _.
  apply NoDup_filter_eq_length; [apply uniqueSortedDateKeys_NoDup |].
  apply uniqueSortedDateKeys_elem. by exists w1.
Qed.

End DayKeyFacts.

Lemma uniqueSortedDateKeys_spec_witness :
  length (filter (fun k => k = 0)
            (Utils.uniqueSortedDateKeys 0
               [Build_WorkoutLite 3600000; Build_WorkoutLite 7200000])) = 1%nat.
Proof.
  destruct (uniqueSortedDateKeys_spec 0
              [Build_WorkoutLite 3600000; Build_WorkoutLite 7200000])
    as (_ & _ & _ & Hcollapse & _).
  apply (Hcollapse (Build_WorkoutLite 3600000) (Build_WorkoutLite 7200000)).
  - left.
  - right. left.
  - reflexivity.
Defined.

(** ** The streak *)

Lemma countChain_nonneg (expected : Utils.DayKey) (rest : list Utils.DayKey) :
  0 <= Utils.countChain expected rest.
Proof.
  revert expected. induction rest as [| d rest IH]; intros expected; simpl; [lia |].
  destruct (d =? expected); [specialize (IH (expected - 1)) |]; lia.
Qed.

(** The walk counts exactly the longest run [expected], [expected - 1], ...
    at the front of [rest]. *)
Lemma countChain_run (expected : Utils.DayKey) (rest : list Utils.DayKey) :
  let c := Utils.countChain expected rest in
  c <= Z.of_nat (length rest) /\
  (forall i : nat, Z.of_nat i < c -> rest !! i = Some (expected - Z.of_nat i)) /\
  rest !! Z.to_nat c <> Some (expected - c).
Proof.
  revert expected. induction rest as [| d rest IH]; intros expected; simpl.
  - split; [lia |]. split; [intros i Hi; lia | done].
  - destruct (Z.eqb_spec d expected) as [-> | Hne].
    + destruct (IH (expected - 1)) as (Hlen & Hrun & Hstop).
      pose proof (countChain_nonneg (expected - 1) rest) as Hnn.
      split; [lia |]. split.
      * intros [| i] Hi; simpl; [f_equal; lia |].
        rewrite Hrun by lia. f_equal. lia.
      * replace (Z.to_nat (1 + Utils.countChain (expected - 1) rest))
          with (S (Z.to_nat (Utils.countChain (expected - 1) rest))) by lia.
        simpl. intros Heq. apply Hstop.
        etrans; [exact Heq | f_equal; lia].
    + split; [lia |]. split; [intros i Hi; lia |].
      simpl. intros [= Heq]. lia.
Qed.

(** C1. Whenever the normalized day sequence is non-empty: a most recent
    day that is neither today nor yesterday gives the streak 0, and a most
    recent day that is today or yesterday gives a streak of at least 1.
    In particular the single day yesterday gives 1 and the single day two
    days ago gives 0. *)
Theorem computeStreak_most_recent (tzOffset now : Z) (ws : list WorkoutLite)
    (mostRecent : Utils.DayKey) (rest : list Utils.DayKey) :
  Utils.uniqueSortedDateKeys tzOffset ws = mostRecent :: rest ->
  let today := Utils.dayKey tzOffset now in
  (mostRecent <> today -> mostRecent <> today - 1 ->
     Utils.computeStreakFromWorkouts tzOffset now ws = 0) /\
  (mostRecent = today \/ mostRecent = today - 1 ->
     1 <= Utils.computeStreakFromWorkouts tzOffset now ws) /\
  Utils.streakOfDays today [today - 1] = 1 /\
  Utils.streakOfDays today [today - 2] = 0.
Proof.
  intros Hdays today. unfold Utils.computeStreakFromWorkouts.
  rewrite Hdays. fold today. simpl.
  pose proof (countChain_nonneg (mostRecent - 1) rest) as Hnn.
  repeat split.
  - intros H1 H2.
    destruct (Z.eqb_spec mostRecent today); [done |].
    destruct (Z.eqb_spec mostRecent (today - 1)); done.
  - intros [-> | ->].
    + rewrite Z.eqb_refl. simpl. lia.
    + rewrite Z.eqb_refl, orb_true_r. lia.
  - rewrite Z.eqb_refl, orb_true_r. reflexivity.
  - destruct (Z.eqb_spec (today - 2) today); [lia |].
    destruct (Z.eqb_spec (today - 2) (today - 1)); [lia | done].
Qed.

Lemma computeStreak_most_recent_witness :
  Utils.computeStreakFromWorkouts 0 172800000 [Build_WorkoutLite 0] = 0 /\
  1 <= Utils.computeStreakFromWorkouts 0 86400000 [Build_WorkoutLite 0].
Proof.
  split.
  - destruct (computeStreak_most_recent 0 172800000 [Build_WorkoutLite 0] 0 [] eq_refl)
      as (Hstale & _).
    apply Hstale; vm_compute; discriminate.
  - destruct (computeStreak_most_recent 0 86400000 [Build_WorkoutLite 0] 0 [] eq_refl)
      as (_ & Hlive & _).
    apply Hlive. right. reflexivity.
Defined.

(** C2. For a non-empty day sequence whose most recent day is today or
    yesterday, the streak [n] is the length of the longest run
    [mostRecent], [mostRecent - 1], ..., at the front of the sequence: the
    first [n] days form that run and the day after them, if any, is not the
    next day of the run.  The days today, today-1, today-2, today-4 give 3. *)
Theorem streakOfDays_walk (today mostRecent : Utils.DayKey) (rest : list Utils.DayKey) :
  mostRecent = today \/ mostRecent = today - 1 ->
  let days := mostRecent :: rest in
  let n := Utils.streakOfDays today days in
  1 <= n <= Z.of_nat (length days) /\
  (forall i : nat, Z.of_nat i < n -> days !! i = Some (mostRecent - Z.of_nat i)) /\
  days !! Z.to_nat n <> Some (mostRecent - n) /\
  Utils.streakOfDays today [today; today - 1; today - 2; today - 4] = 3.
Proof.
  intros Hrecent days n.
  assert (Hn : n = 1 + Utils.countChain (mostRecent - 1) rest).
  { subst n days. simpl.
    destruct Hrecent as [-> | ->]; [by rewrite Z.eqb_refl |].
    by rewrite Z.eqb_refl, orb_true_r. }
  destruct (countChain_run (mostRecent - 1) rest) as (Hlen & Hrun & Hstop).
  pose proof (countChain_nonneg (mostRecent - 1) rest) as Hnn.
  rewrite Hn. subst days. simpl length.
  split; [lia |]. split; [| split].
  - intros [| i] Hi; simpl; [f_equal; lia |].
    rewrite Hrun by lia. f_equal. lia.
  - replace (Z.to_nat (1 + Utils.countChain (mostRecent - 1) rest))
      with (S (Z.to_nat (Utils.countChain (mostRecent - 1) rest))) by lia.
    simpl. intros Heq. apply Hstop.
    etrans; [exact Heq | f_equal; lia].
  - simpl. rewrite Z.eqb_refl. simpl.
    rewrite !Z.eqb_refl.
    replace (today - 1 - 1) with (today - 2) by lia.
    rewrite Z.eqb_refl.
    destruct (Z.eqb_spec (today - 4) (today - 2 - 1)); [lia | reflexivity].
Qed.

Lemma streakOfDays_walk_witness :
  [5; 4; 3; 1] !! Z.to_nat (Utils.streakOfDays 5 [5; 4; 3; 1])
    <> Some (5 - Utils.streakOfDays 5 [5; 4; 3; 1]).
Proof.
  destruct (streakOfDays_walk 5 5 [4; 3; 1] (or_introl eq_refl))
    as (_ & _ & Hstop & _).
  exact Hstop.
Defined.

(** ** The accumulator in closed form *)

Lemma fold_left_flat_map {A B C : Type} (f : A -> C -> A) (g : B -> list C)
    (l : list B) (a : A) :
  fold_left f (flat_map g l) a = fold_left (fun a' x => fold_left f (g x) a') l a.
Proof.
  revert a. induction l as [| x l IH]; intros a; simpl; [done |].
  by rewrite fold_left_app, IH.
Qed.


Section AggregateFacts.

Context {W : Type} `{Number W}.

Lemma fold_setStep (ss : list (SetRecord W)) (acc : Acc W) :
  fold_left setStep ss acc = {|
    acc_totalSets := acc_totalSets acc;
    acc_totalReps := fold_left repsStep ss (acc_totalReps acc);
    acc_totalVolume := fold_left volumeStep ss (acc_totalVolume acc);
    acc_heaviestWeight := fold_left heaviestStep ss (acc_heaviestWeight acc);
    acc_exerciseFrequency := acc_exerciseFrequency acc
  |}.
Proof.
  revert acc. induction ss as [| s ss IH]; intros acc; simpl.
  - by destruct acc.
  - by rewrite IH.
Qed.

Lemma fold_exerciseStep (wes : list (WorkoutExercise W)) (acc : Acc W) :
  fold_left exerciseStep wes acc = {|
    acc_totalSets := fold_left setCountStep wes (acc_totalSets acc);
    acc_totalReps := fold_left repsStep (flat_map sets wes) (acc_totalReps acc);
    acc_totalVolume := fold_left volumeStep (flat_map sets wes) (acc_totalVolume acc);
    acc_heaviestWeight :=
      fold_left heaviestStep (flat_map sets wes) (acc_heaviestWeight acc);
    acc_exerciseFrequency :=
      fold_left frequencyStep (map exerciseId wes) (acc_exerciseFrequency acc)
  |}.
Proof.
  revert acc. induction wes as [| we wes IH]; intros acc; simpl.
  - by destruct acc.
  - rewrite IH. unfold exerciseStep at 1 2 3 4 5. rewrite fold_setStep. simpl.
    by rewrite !fold_left_app.
Qed.

Lemma fold_workoutStep (ws : list (Workout W)) (acc : Acc W) :
  fold_left workoutStep ws acc = {|
    acc_totalSets := fold_left setCountStep (allExercises ws) (acc_totalSets acc);
    acc_totalReps := fold_left repsStep (allSets ws) (acc_totalReps acc);
    acc_totalVolume := fold_left volumeStep (allSets ws) (acc_totalVolume acc);
    acc_heaviestWeight := fold_left heaviestStep (allSets ws) (acc_heaviestWeight acc);
    acc_exerciseFrequency :=
      fold_left frequencyStep (exerciseIdsInOrder ws) (acc_exerciseFrequency acc)
  |}.
Proof.
  unfold allSets, exerciseIdsInOrder, allExercises.
  revert acc. induction ws as [| w ws IH]; intros acc; simpl.
  - by destruct acc.
  - rewrite IH. unfold workoutStep at 1 2 3 4 5. rewrite fold_exerciseStep. simpl.
    by rewrite flat_map_app, map_app, !fold_left_app.
Qed.

Lemma aggregate_closed (ws : list (Workout W)) :
  aggregate ws = {|
    acc_totalSets := fold_left setCountStep (allExercises ws) 0;
    acc_totalReps := fold_left repsStep (allSets ws) 0;
    acc_totalVolume := fold_left volumeStep (allSets ws) (num_of_int 0);
    acc_heaviestWeight := fold_left heaviestStep (allSets ws) (num_of_int 0);
    acc_exerciseFrequency := fold_left frequencyStep (exerciseIdsInOrder ws) []
  |}.
Proof. unfold aggregate. by rewrite fold_workoutStep. Qed.

Lemma collectExerciseIds_closed (ws : list (Workout W)) :
  collectExerciseIds ws =
  fold_left (fun ids we => {[exerciseId we]} ∪ ids) (allExercises ws) ∅.
Proof.
  unfold collectExerciseIds, allExercises. by rewrite fold_left_flat_map.
Qed.

End AggregateFacts.

(** ** Reordering *)

Section Reordering.

Context {W : Type} {numW : Number W}.

Lemma allExercises_Permutation (ws ws' : list (Workout W)) :
  ws ≡ₚ ws' -> allExercises ws ≡ₚ allExercises ws'.
Proof. intros Hp. unfold allExercises. by apply Permutation_flat_map. Qed.


Lemma setsReordered_flat (wes wes' : list (WorkoutExercise W)) :
  Forall2 setsReordered wes wes' -> flat_map sets wes ≡ₚ flat_map sets wes'.
Proof.
  induction 1 as [| we we' wes wes' [_ Hsets] _ IH]; simpl; [done |].
  by rewrite Hsets, IH.
Qed.

Lemma innerReordered_sets (w w' : Workout W) :
  innerReordered w w' ->
  flat_map sets (workoutExercises w) ≡ₚ flat_map sets (workoutExercises w').
Proof.
  intros (_ & _ & _ & wes & Hsets & Hperm).
  rewrite (setsReordered_flat _ _ Hsets). by apply Permutation_flat_map.
Qed.

Lemma innerReordered_allSets (ws ws' : list (Workout W)) :
  Forall2 innerReordered ws ws' -> allSets ws ≡ₚ allSets ws'.
Proof.
  unfold allSets, allExercises.
  induction 1 as [| w w' ws ws' Hw _ IH]; simpl; [done |].
  rewrite !flat_map_app. by rewrite (innerReordered_sets _ _ Hw), IH.
Qed.





End Reordering.

(** ** Binary64 arithmetic

    The order [<] of binary64 and the exact cases of [+] and [*], from the
    specification of the primitive operations. *)

Lemma SFltb_irrefl (a : spec_float) : SFltb a a = false.
Proof.
  unfold SFltb, SFcompare. destruct a as [s | s | | s m e]; try done.
  - by destruct s.
  - destruct s; rewrite Z.compare_refl, Pos.compare_cont_refl; done.
Qed.

Lemma SFltb_trans (a b c : spec_float) :
  SFltb a b = true -> SFltb b c = true -> SFltb a c = true.
Proof.
  unfold SFltb, SFcompare.
  destruct a as [[] | [] | | [] m1 e1], b as [[] | [] | | [] m2 e2],
           c as [[] | [] | | [] m3 e3]; try done;
    change (Pos.compare_cont Eq m1 m2) with (Pos.compare m1 m2);
    change (Pos.compare_cont Eq m2 m3) with (Pos.compare m2 m3);
    change (Pos.compare_cont Eq m1 m3) with (Pos.compare m1 m3);
    destruct (Z.compare_spec e1 e2), (Z.compare_spec e2 e3), (Z.compare_spec e1 e3);
    try done; try lia;
    destruct (Pos.compare_spec m1 m2), (Pos.compare_spec m2 m3),
             (Pos.compare_spec m1 m3); try done; try lia.
Qed.


Lemma ltb_irrefl (x : float) : PrimFloat.ltb x x = false.
Proof. rewrite FloatAxioms.ltb_spec. apply SFltb_irrefl. Qed.

Lemma ltb_trans (x y z : float) :
  PrimFloat.ltb x y = true -> PrimFloat.ltb y z = true -> PrimFloat.ltb x z = true.
Proof. rewrite !FloatAxioms.ltb_spec. apply SFltb_trans. Qed.


Lemma digits2_pos_log2 (m : positive) :
  Zpos (digits2_pos m) = Z.log2 (Zpos m) + 1.
Proof.
  assert (Hsize : forall p, digits2_pos p = Pos.size p).
  { induction p as [p IH | p IH |]; simpl; by rewrite ?IH. }
  destruct m as [p | p |]; simpl; rewrite ?Hsize; lia.
Qed.

Lemma iter_xO_pow (m d : positive) :
  Zpos (Pos.iter xO m d) = Zpos m * 2 ^ Zpos d.
Proof.
  induction d as [| d IH] using Pos.peano_ind.
  - simpl. lia.
  - rewrite Pos.iter_succ, Pos2Z.inj_succ, Z.pow_succ_r by lia.
    rewrite Pos2Z.inj_xO, IH. lia.
Qed.

(** Shifting out zero bits loses nothing. *)
Lemma shr_exact (p m : positive) :
  SpecFloat.iter_pos shr_1 p (Build_shr_record (Zpos (Pos.iter xO m p)) false false)
  = Build_shr_record (Zpos m) false false.
Proof.
  revert m. induction p as [p IH | p IH |]; intros m; simpl.
  - by rewrite !IH.
  - by rewrite !IH.
  - done.
Qed.

(** Rounding a positive integer below 2^53, given as mantissa [M] and
    exponent [E], returns that integer. *)
Lemma round_exact (s : bool) (M : positive) (E N : Z) :
  0 < N < 2 ^ 53 ->
  E <= Z.log2 N - 52 ->
  Zpos M = N * 2 ^ (- E) ->
  binary_round_aux prec emax s (Zpos M) E loc_Exact = canonical s N.
Proof.
  intros HN HE HM.
  assert (Hlog : 0 <= Z.log2 N < 53).
  { split; [apply Z.log2_nonneg |]. apply Z.log2_lt_pow2; lia. }
  unfold canonical.
  set (e' := Z.log2 N - 52).
  set (m' := Z.to_pos (N * 2 ^ (52 - Z.log2 N))).
  assert (Hm' : Zpos m' = N * 2 ^ (- e')).
  { unfold m', e'. rewrite Z2Pos.id; [f_equal; f_equal; lia |].
    apply Z.mul_pos_pos; [lia |]. apply Z.pow_pos_nonneg; lia. }
  assert (HdM : Zpos (digits2_pos M) + E = Z.log2 N + 1).
  { rewrite digits2_pos_log2, HM, Z.log2_mul_pow2 by lia. lia. }
  assert (Hdm' : Zpos (digits2_pos m') + e' = Z.log2 N + 1).
  { rewrite digits2_pos_log2, Hm', Z.log2_mul_pow2 by lia. lia. }
  assert (Hfexp : fexp prec emax (Z.log2 N + 1) = e').
  { unfold fexp, emin, prec, emax, e'. lia. }
  assert (Hstage1 : shr_fexp prec emax (Zpos M) E loc_Exact
                    = (Build_shr_record (Zpos m') false false, e')).
  { unfold shr_fexp. simpl Zdigits2. rewrite HdM, Hfexp. simpl shr_record_of_loc.
    destruct (e' - E) as [| p | p] eqn:Hn; [| | lia].
    - simpl. assert (E = e') as -> by lia. f_equal. f_equal.
      rewrite HM, <- Hm'. done.
    - simpl. f_equal; [| lia].
      assert (M = Pos.iter xO m' p) as ->; [| apply shr_exact].
      apply Pos2Z.inj. rewrite iter_xO_pow, Hm', HM, <- Hn.
      rewrite <- Z.mul_assoc, <- Z.pow_add_r by lia. f_equal. f_equal. lia. }
  assert (Hstage2 : shr_fexp prec emax (Zpos m') e' loc_Exact
                    = (Build_shr_record (Zpos m') false false, e')).
  { unfold shr_fexp. simpl Zdigits2. rewrite Hdm', Hfexp, Z.sub_diag. done. }
  unfold binary_round_aux. rewrite Hstage1. simpl. rewrite Hstage2. simpl.
  assert ((e' <=? emax - prec) = true) as ->.
  { apply Z.leb_le. unfold emax, prec, e'. lia. }
  done.
Qed.

Lemma normalize_exact (N : Z) :
  0 < N < 2 ^ 53 -> binary_normalize prec emax N 0 false = canonical false N.
Proof.
  intros HN. destruct N as [| n | n]; [lia | | lia]. simpl binary_normalize.
  assert (Hlog : 0 <= Z.log2 (Zpos n) < 53).
  { split; [apply Z.log2_nonneg |]. apply Z.log2_lt_pow2; lia. }
  unfold binary_round, shl_align.
  assert (Hfexp : fexp prec emax (Zpos (digits2_pos n) + 0) = Z.log2 (Zpos n) - 52).
  { rewrite digits2_pos_log2. unfold fexp, emin, prec, emax. lia. }
  rewrite Hfexp.
  destruct (Z.log2 (Zpos n) - 52 - 0) as [| d | d] eqn:Hd.
  - apply round_exact; [done | lia | simpl; lia].
  - lia.
  - apply round_exact; [done | lia |].
    rewrite iter_xO_pow. f_equal. f_equal. lia.
Qed.

Lemma canonical_mantissa_value (s : bool) (N : Z) :
  0 < N < 2 ^ 53 ->
  exists m, canonical s N = S754_finite s m (Z.log2 N - 52) /\
            Zpos m = N * 2 ^ (52 - Z.log2 N) /\ 0 <= Z.log2 N < 53.
Proof.
  intros HN.
  assert (Hlog : 0 <= Z.log2 N < 53).
  { split; [apply Z.log2_nonneg |]. apply Z.log2_lt_pow2; lia. }
  eexists. split; [reflexivity |]. split; [| done].
  rewrite Z2Pos.id; [done |].
  apply Z.mul_pos_pos; [lia |]. apply Z.pow_pos_nonneg; lia.
Qed.

Lemma shl_align_value (mx : positive) (ex ez : Z) :
  ez <= ex -> Zpos (fst (shl_align mx ex ez)) = Zpos mx * 2 ^ (ex - ez).
Proof.
  intros Hle. unfold shl_align.
  destruct (ez - ex) as [| d | d] eqn:Hd; simpl.
  - replace (ex - ez) with 0 by lia. lia.
  - lia.
  - rewrite iter_xO_pow. f_equal. f_equal. lia.
Qed.

Lemma shl_align_ge (mx : positive) (ex ex' : Z) :
  ex <= ex' -> shl_align mx ex ex' = (mx, ex).
Proof.
  intros Hle. unfold shl_align.
  destruct (ex' - ex) as [| d | d] eqn:Hd; [done | done | lia].
Qed.

(** The sum of two natural numbers is exact while it stays below 2^53. *)
Lemma SFadd_nat (a b : Z) :
  0 <= a -> 0 <= b -> a + b < 2 ^ 53 ->
  SF64add (natSF a) (natSF b) = natSF (a + b).
Proof.
  intros Ha Hb Hsum. unfold natSF.
  destruct (Z.eqb_spec a 0) as [-> | Ha0]; destruct (Z.eqb_spec b 0) as [-> | Hb0].
  - done.
  - rewrite Z.add_0_l, (proj2 (Z.eqb_neq b 0) Hb0).
    destruct (canonical_mantissa_value false b) as (m & -> & _); [lia | done].
  - rewrite Z.add_0_r, (proj2 (Z.eqb_neq a 0) Ha0).
    destruct (canonical_mantissa_value false a) as (m & -> & _); [lia | done].
  - rewrite (proj2 (Z.eqb_neq (a + b) 0)) by lia.
    destruct (canonical_mantissa_value false a) as (mx & -> & Hmx & Hla); [lia |].
    destruct (canonical_mantissa_value false b) as (my & -> & Hmy & Hlb); [lia |].
    set (ex := Z.log2 a - 52) in *. set (ey := Z.log2 b - 52) in *.
    unfold SF64add, SFadd. set (ez := Z.min ex ey).
    assert (Hzx : ez <= ex) by (unfold ez; lia).
    assert (Hzy : ez <= ey) by (unfold ez; lia).
    pose proof (shl_align_value mx ex ez Hzx) as HA.
    pose proof (shl_align_value my ey ez Hzy) as HB.
    simpl cond_Zopp. rewrite <- Pos2Z.inj_add. simpl binary_normalize.
    set (M := (fst (shl_align mx ex ez) + fst (shl_align my ey ez))%positive).
    assert (HM : Zpos M = (a + b) * 2 ^ (- ez)).
    { unfold M. rewrite Pos2Z.inj_add, HA, HB, Hmx, Hmy.
      rewrite <- !Z.mul_assoc, <- !Z.pow_add_r by (unfold ex, ey; lia).
      replace (52 - Z.log2 a + (ex - ez)) with (- ez) by (unfold ex; lia).
      replace (52 - Z.log2 b + (ey - ez)) with (- ez) by (unfold ey; lia).
      lia. }
    assert (Hlog : Z.log2 a <= Z.log2 (a + b) /\ Z.log2 b <= Z.log2 (a + b)).
    { split; apply Z.log2_le_mono; lia. }
    assert (Hez : ez <= Z.log2 (a + b) - 52) by (unfold ez, ex, ey; lia).
    unfold binary_round.
    assert (Hfexp : fexp prec emax (Zpos (digits2_pos M) + ez) = Z.log2 (a + b) - 52).
    { rewrite digits2_pos_log2, HM, Z.log2_mul_pow2 by (unfold ez, ex, ey; lia).
      pose proof (Z.log2_nonneg (a + b)). unfold fexp, emin, prec, emax. lia. }
    rewrite Hfexp, shl_align_ge by done.
    apply round_exact; [lia | done | done].
Qed.

(** The product of two natural numbers is exact while it stays below 2^53. *)
Lemma SFmul_nat (a b : Z) :
  0 <= a < 2 ^ 53 -> 0 <= b < 2 ^ 53 -> a * b < 2 ^ 53 ->
  SF64mul (natSF a) (natSF b) = natSF (a * b).
Proof.
  intros Ha Hb Hprod. unfold natSF.
  destruct (Z.eqb_spec a 0) as [-> | Ha0]; destruct (Z.eqb_spec b 0) as [-> | Hb0].
  - done.
  - rewrite Z.mul_0_l. change (0 =? 0) with true. cbv iota.
    destruct (canonical_mantissa_value false b) as (m & -> & _); [lia | done].
  - rewrite Z.mul_0_r. change (0 =? 0) with true. cbv iota.
    destruct (canonical_mantissa_value false a) as (m & -> & _); [lia | done].
  - rewrite (proj2 (Z.eqb_neq (a * b) 0)) by nia.
    assert (Hab : 0 < a * b) by nia.
    destruct (canonical_mantissa_value false a) as (mx & -> & Hmx & Hla); [lia |].
    destruct (canonical_mantissa_value false b) as (my & -> & Hmy & Hlb); [lia |].
    unfold SF64mul, SFmul. simpl xorb.
    apply round_exact; [lia | |].
    + pose proof (Z.log2_mul_below a b ltac:(lia) ltac:(lia)). lia.
    + rewrite Pos2Z.inj_mul, Hmx, Hmy.
      replace (- (Z.log2 a - 52 + (Z.log2 b - 52)))
        with ((52 - Z.log2 a) + (52 - Z.log2 b)) by lia.
      rewrite Z.pow_add_r by lia. lia.
Qed.

(** On natural numbers below 2^53 the order of binary64 is the order of
    the integers. *)
Lemma SFltb_nat (a b : Z) :
  0 <= a < 2 ^ 53 -> 0 <= b < 2 ^ 53 -> SFltb (natSF a) (natSF b) = (a <? b).
Proof.
  intros Ha Hb. unfold natSF.
  destruct (Z.eqb_spec a 0) as [-> | Ha0]; destruct (Z.eqb_spec b 0) as [-> | Hb0].
  - done.
  - destruct (canonical_mantissa_value false b) as (m & -> & _); [lia |].
    simpl. symmetry. apply Z.ltb_lt. lia.
  - destruct (canonical_mantissa_value false a) as (m & -> & _); [lia |].
    simpl. symmetry. apply Z.ltb_ge. lia.
  - destruct (canonical_mantissa_value false a) as (mx & -> & Hmx & Hla); [lia |].
    destruct (canonical_mantissa_value false b) as (my & -> & Hmy & Hlb); [lia |].
    unfold SFltb, SFcompare.
    change (Pos.compare_cont Eq mx my) with (Pos.compare mx my).
    destruct (Z.ltb_spec a b) as [Hlt | Hge].
    + assert (Z.log2 a <= Z.log2 b) by (apply Z.log2_le_mono; lia).
      destruct (Z.compare_spec (Z.log2 a - 52) (Z.log2 b - 52)) as [Heq | ? | ?];
        [| done | lia].
      assert (Heq' : Z.log2 a = Z.log2 b) by lia.
      assert (0 < 2 ^ (52 - Z.log2 b)) by (apply Z.pow_pos_nonneg; lia).
      destruct (Pos.compare_spec mx my) as [Hm | Hm | Hm]; [| done |].
      * exfalso. assert (Zpos mx = Zpos my) by by f_equal.
        rewrite Hmx, Hmy, Heq' in *. nia.
      * exfalso. assert (Zpos my < Zpos mx) by lia.
        rewrite Hmx, Hmy, Heq' in *. nia.
    + assert (Z.log2 b <= Z.log2 a) by (apply Z.log2_le_mono; lia).
      destruct (Z.compare_spec (Z.log2 a - 52) (Z.log2 b - 52)) as [Heq | ? | ?];
        [| lia | done].
      assert (Heq' : Z.log2 a = Z.log2 b) by lia.
      assert (0 < 2 ^ (52 - Z.log2 b)) by (apply Z.pow_pos_nonneg; lia).
      destruct (Pos.compare_spec mx my) as [Hm | Hm | Hm]; [done | | done].
      exfalso. assert (Zpos mx < Zpos my) by lia.
      rewrite Hmx, Hmy, Heq' in *. nia.
Qed.

(** [float_of_Z] of a natural number below 2^53 is that number. *)
Lemma float_of_Z_spec (N : Z) :
  0 <= N < 2 ^ 53 -> Prim2SF (float_of_Z N) = natSF N.
Proof.
  intros HN. unfold natSF. destruct N as [| n | n]; [done | | lia].
  change (float_of_Z (Zpos n)) with (PrimFloat.of_uint63 (Uint63.of_Z (Zpos n))).
  rewrite FloatAxioms.of_uint63_spec, Uint63.of_Z_spec.
  rewrite Z.mod_small; [by apply normalize_exact; lia |].
  split; [lia |].
  assert (2 ^ 53 < wB) by done. lia.
Qed.

Lemma add_exact (a b : Z) :
  0 <= a -> 0 <= b -> a + b < 2 ^ 53 ->
  PrimFloat.add (float_of_Z a) (float_of_Z b) = float_of_Z (a + b).
Proof.
  intros Ha Hb Hsum. apply Prim2SF_inj.
  rewrite FloatAxioms.add_spec, !float_of_Z_spec by lia. by apply SFadd_nat.
Qed.

Lemma mul_exact (a b : Z) :
  0 <= a < 2 ^ 53 -> 0 <= b < 2 ^ 53 -> a * b < 2 ^ 53 ->
  PrimFloat.mul (float_of_Z a) (float_of_Z b) = float_of_Z (a * b).
Proof.
  intros Ha Hb Hprod. apply Prim2SF_inj.
  rewrite FloatAxioms.mul_spec, !float_of_Z_spec by nia. by apply SFmul_nat.
Qed.

Lemma ltb_exact (a b : Z) :
  0 <= a < 2 ^ 53 -> 0 <= b < 2 ^ 53 ->
  PrimFloat.ltb (float_of_Z a) (float_of_Z b) = (a <? b).
Proof.
  intros Ha Hb. rewrite FloatAxioms.ltb_spec, !float_of_Z_spec by lia.
  by apply SFltb_nat.
Qed.

(** ** Integer-valued histories: binary64 against exact integers *)

Lemma fold_left_map_eq {A B C : Type} (f : A -> C -> A) (f' : A -> B -> A)
    (g : B -> C) (l : list B) (a : A) :
  (forall a' x, f a' (g x) = f' a' x) ->
  fold_left f (map g l) a = fold_left f' l a.
Proof.
  intros Hstep. revert a. induction l as [| x l IH]; intros a; simpl; [done |].
  by rewrite Hstep, IH.
Qed.

Lemma allExercises_toBinary64 (zs : list (Workout Z)) :
  allExercises (map toBinary64 zs) = map exerciseToBinary64 (allExercises zs).
Proof.
  unfold allExercises. induction zs as [| w zs IH]; simpl; [done |].
  by rewrite map_app, IH.
Qed.

Lemma allSets_toBinary64 (zs : list (Workout Z)) :
  allSets (map toBinary64 zs) = map setToBinary64 (allSets zs).
Proof.
  unfold allSets. rewrite allExercises_toBinary64.
  induction (allExercises zs) as [| we wes IH]; simpl; [done |].
  by rewrite map_app, IH.
Qed.

Lemma exerciseIdsInOrder_toBinary64 (zs : list (Workout Z)) :
  exerciseIdsInOrder (map toBinary64 zs) = exerciseIdsInOrder zs.
Proof.
  unfold exerciseIdsInOrder. rewrite allExercises_toBinary64, map_map. done.
Qed.

Lemma sumZ_Permutation (l l' : list Z) : l ≡ₚ l' -> sumZ l = sumZ l'.
Proof.
  unfold sumZ. induction 1 as [| x l l' _ IH | x y l | l1 l2 l3 _ IH1 _ IH2]; simpl; lia.
Qed.

Lemma exactVolume_Permutation (ss ss' : list (SetRecord Z)) :
  ss ≡ₚ ss' -> exactVolume ss = exactVolume ss'.
Proof. intros Hp. unfold exactVolume. by apply sumZ_Permutation, Permutation_map. Qed.

Lemma exactVolume_app (ss1 ss2 : list (SetRecord Z)) :
  exactVolume (ss1 ++ ss2) = exactVolume ss1 + exactVolume ss2.
Proof.
  unfold exactVolume, sumZ. induction ss1 as [| s ss1 IH]; simpl; lia.
Qed.

Lemma exactVolume_nonneg (ss : list (SetRecord Z)) :
  Forall (fun s => 0 <= repetitions s < 2 ^ 53 /\ 0 <= weight s < 2 ^ 53) ss ->
  0 <= exactVolume ss.
Proof.
  unfold exactVolume, sumZ. induction 1 as [| s ss [Hr Hw] _ IH]; simpl; [done | nia].
Qed.

(** Over exact integers [totalVolume] is the exact sum. *)
Lemma fold_volumeStep_Z (ss : list (SetRecord Z)) (v : Z) :
  fold_left volumeStep ss v = v + exactVolume ss.
Proof.
  unfold exactVolume.
  revert v. induction ss as [| s ss IH]; intros v; simpl; [lia |].
  rewrite IH. unfold volumeStep. simpl. lia.
Qed.

(** The running [totalVolume] of the binary64 handler is the exact sum. *)
Lemma fold_volumeStep_binary64 (ss : list (SetRecord Z)) (v : Z) :
  Forall (fun s => 0 <= repetitions s < 2 ^ 53 /\ 0 <= weight s < 2 ^ 53) ss ->
  0 <= v -> v + exactVolume ss < 2 ^ 53 ->
  fold_left volumeStep (map setToBinary64 ss) (float_of_Z v)
  = float_of_Z (v + exactVolume ss).
Proof.
  intros Hall. revert v.
  induction Hall as [| s ss [Hr Hw] Hall IH]; intros v Hv Hsum; cbn [map fold_left].
  - unfold exactVolume. simpl. by rewrite Z.add_0_r.
  - pose proof (exactVolume_nonneg _ Hall) as Hrest.
    change (exactVolume (s :: ss)) with (repetitions s * weight s + exactVolume ss) in *.
    assert (Hprod : 0 <= repetitions s * weight s) by nia.
    assert (Hstep : volumeStep (float_of_Z v) (setToBinary64 s)
                    = float_of_Z (v + repetitions s * weight s)).
    { unfold volumeStep. simpl. rewrite mul_exact, add_exact by lia. done. }
    rewrite Hstep, IH by lia. f_equal. lia.
Qed.

Lemma fold_heaviestStep_Z_range (ss : list (SetRecord Z)) (h : Z) :
  Forall (fun s => 0 <= repetitions s < 2 ^ 53 /\ 0 <= weight s < 2 ^ 53) ss ->
  0 <= h < 2 ^ 53 -> 0 <= fold_left heaviestStep ss h < 2 ^ 53.
Proof.
  intros Hall. revert h.
  induction Hall as [| s ss [Hr Hw] _ IH]; intros h Hh; simpl; [done |].
  apply IH. unfold heaviestStep. simpl. destruct (Z.gtb_spec (weight s) h); lia.
Qed.

(** The running [heaviestWeight] of the binary64 handler is the greatest
    integer weight. *)
Lemma fold_heaviestStep_binary64 (ss : list (SetRecord Z)) (h : Z) :
  Forall (fun s => 0 <= repetitions s < 2 ^ 53 /\ 0 <= weight s < 2 ^ 53) ss ->
  0 <= h < 2 ^ 53 ->
  fold_left heaviestStep (map setToBinary64 ss) (float_of_Z h)
  = float_of_Z (fold_left heaviestStep ss h).
Proof.
  intros Hall. revert h.
  induction Hall as [| s ss [Hr Hw] _ IH]; intros h Hh; cbn [map fold_left]; [done |].
  assert (Hstep : heaviestStep (float_of_Z h) (setToBinary64 s)
                  = float_of_Z (heaviestStep h s)).
  { unfold heaviestStep. simpl. rewrite ltb_exact by done.
    by destruct (Z.ltb_spec h (weight s)), (Z.gtb_spec (weight s) h); try lia. }
  rewrite Hstep. apply IH.
  unfold heaviestStep. simpl. destruct (Z.gtb_spec (weight s) h); lia.
Qed.

(** On an integer history within the range where binary64 does not round,
    the binary64 handler answers with the image of the reply computed over
    exact integers. *)
Lemma profile_binary64 (tzOffset now : Z) (exercises : list Exercise)
    (u : option User) (zs : list (Workout Z)) :
  withinBinary64 zs ->
  profile tzOffset now exercises u (map toBinary64 zs)
  = profileToBinary64 (profile tzOffset now exercises u zs).
Proof.
  intros [Hall Hsum].
  assert (Hagg : aggregate (map toBinary64 zs) = {|
            acc_totalSets := acc_totalSets (aggregate zs);
            acc_totalReps := acc_totalReps (aggregate zs);
            acc_totalVolume := float_of_Z (acc_totalVolume (aggregate zs));
            acc_heaviestWeight := float_of_Z (acc_heaviestWeight (aggregate zs));
            acc_exerciseFrequency := acc_exerciseFrequency (aggregate zs) |}).
  { rewrite !aggregate_closed. simpl.
    rewrite exerciseIdsInOrder_toBinary64, allSets_toBinary64, allExercises_toBinary64.
    f_equal.
    - apply fold_left_map_eq. intros n we. unfold setCountStep. simpl.
      by rewrite length_map.
    - by apply fold_left_map_eq.
    - rewrite (fold_volumeStep_binary64 _ 0) by (done || lia).
      f_equal. rewrite fold_volumeStep_Z. done.
    - rewrite (fold_heaviestStep_binary64 _ 0) by (done || lia). done. }
  assert (Hlite : map (fun w : Workout float => {| lite_startedAt := startedAt w |})
                    (map toBinary64 zs)
                  = map (fun w : Workout Z => {| lite_startedAt := startedAt w |}) zs).
  { by rewrite map_map. }
  assert (Hids : collectExerciseIds (map toBinary64 zs) = collectExerciseIds zs).
  { rewrite !collectExerciseIds_closed, allExercises_toBinary64.
    by apply fold_left_map_eq. }
  assert (Hdur : sumDuration (map toBinary64 zs) = sumDuration zs).
  { unfold sumDuration. by apply fold_left_map_eq. }
  unfold profile, profileToBinary64, favoriteExerciseId. simpl.
  rewrite Hagg, Hlite, Hids, Hdur, length_map. done.
Qed.

(** The binary64 volume of any arrangement of the sets of an integer
    history within range is the exact volume. *)
Lemma totalVolume_of_integer_sets (zs : list (Workout Z)) (ss' : list (SetRecord float)) :
  withinBinary64 zs ->
  map setToBinary64 (allSets zs) ≡ₚ ss' ->
  fold_left volumeStep ss' (num_of_int 0) = float_of_Z (exactVolume (allSets zs)).
Proof.
  intros [Hall Hsum] Hperm. symmetry in Hperm.
  apply Permutation_map_inv in Hperm as (ss & -> & Hperm).
  assert (Hall' : Forall (fun s => 0 <= repetitions s < 2 ^ 53 /\ 0 <= weight s < 2 ^ 53) ss)
    by by rewrite <- Hperm.
  rewrite (exactVolume_Permutation _ _ Hperm) in Hsum |- *.
  change (num_of_int 0) with (float_of_Z 0).
  rewrite fold_volumeStep_binary64 by (done || lia). done.
Qed.

(** ** The heaviest weight in binary64 *)

(** The running maximum never falls, no set seen is heavier than it, and
    it is the start value or a weight above it that was seen.  A weight
    that is not a number compares false and is never taken. *)
Lemma fold_heaviestStep_bound (ss : list (SetRecord float)) (h : float) :
  let h' := fold_left heaviestStep ss h in
  PrimFloat.ltb h' h = false /\
  (forall s, s ∈ ss -> PrimFloat.ltb h' (weight s) = false) /\
  (h' = h \/ (PrimFloat.ltb h h' = true /\ exists s, s ∈ ss /\ weight s = h')).
Proof.
  induction ss as [| s ss IH] using rev_ind; simpl.
  - split; [apply ltb_irrefl |]. split; [| by left].
    intros s Hs. by apply elem_of_nil in Hs.
  - rewrite fold_left_app. simpl.
    destruct IH as (Hh & Hall & Hatt).
    set (m := fold_left heaviestStep ss h) in *.
    unfold heaviestStep. simpl. destruct (PrimFloat.ltb m (weight s)) eqn:Hgt.
    + assert (Hhw : PrimFloat.ltb h (weight s) = true).
      { destruct Hatt as [Heq | [Hlt _]]; [by rewrite <- Heq |].
        by apply (ltb_trans _ m). }
      split.
      { destruct (PrimFloat.ltb (weight s) h) eqn:Hbad; [| done].
        pose proof (ltb_trans _ _ _ Hhw Hbad) as Hc. by rewrite ltb_irrefl in Hc. }
      split.
      * intros s' Hs'. apply elem_of_app in Hs' as [Hs' | Hs'].
        -- destruct (PrimFloat.ltb (weight s) (weight s')) eqn:Hbad; [| done].
           pose proof (ltb_trans _ _ _ Hgt Hbad) as Hc. by rewrite (Hall s' Hs') in Hc.
        -- apply list_elem_of_singleton in Hs' as ->. apply ltb_irrefl.
      * right. split; [done |]. exists s. split; [| done]. apply elem_of_app. right. left.
    + split; [done |]. split.
      * intros s' Hs'. apply elem_of_app in Hs' as [Hs' | Hs']; [by apply Hall |].
        by apply list_elem_of_singleton in Hs' as ->.
      * destruct Hatt as [Heq | (Hlt & s' & Hs' & Hw)]; [by left |].
        right. split; [done |]. exists s'. split; [| done]. apply elem_of_app. by left.
Qed.


(** ** The totals *)

(** Two binary64 values that differ. *)
Lemma float_neq (x y : float) :
  PrimFloat.eqb y y = true -> PrimFloat.eqb x y = false -> x <> y.
Proof. intros Hy Hxy ->. congruence. Qed.

(** C8, as stated, on binary64 weights: reversing the three sets of one
    exercise changes [totalVolume] (0.6000000000000001 against 0.6). *)
Lemma totalVolume_set_order_binary64 :
  Forall2 innerReordered Examples.fractional Examples.fractionalReversed /\
  totalVolume (profile 0 0 [] None Examples.fractional)
    <> totalVolume (profile 0 0 [] None Examples.fractionalReversed).
Proof.
  split.
  - constructor; [| constructor].
    repeat split. eexists. split; [| reflexivity].
    constructor; [| constructor].
    split; [reflexivity |]. apply (Permutation_rev [_; _; _]).
  - apply float_neq; vm_compute; reflexivity.
Qed.

(** C8, as amended. In the binary64 arithmetic of the handler,
    [totalVolume] is unchanged by any reordering of the sets within a
    WorkoutExerciseRecord and of the WorkoutExerciseRecords within a
    WorkoutRecord when the history is integer-valued: every weight and
    every repetition count is a natural number below 2^53 and the exact
    total volume is below 2^53, so that no addition rounds. *)
Theorem totalVolume_inner_order (tzOffset now : Z) (exercises : list Exercise)
    (u : option User) (ws ws' : list (Workout float)) :
  integerValued ws ->
  Forall2 innerReordered ws ws' ->
  totalVolume (profile tzOffset now exercises u ws)
    = totalVolume (profile tzOffset now exercises u ws').
Proof.
  intros (zs & Hzs & ->) Hre.
  change (acc_totalVolume (aggregate (map toBinary64 zs))
          = acc_totalVolume (aggregate ws')).
  rewrite !aggregate_closed. cbn [acc_totalVolume].
  apply innerReordered_allSets in Hre. rewrite allSets_toBinary64 in Hre.
  rewrite (totalVolume_of_integer_sets zs (allSets ws') Hzs Hre).
  rewrite allSets_toBinary64. by apply totalVolume_of_integer_sets.
Qed.

Lemma integral_withinBinary64 : withinBinary64 Examples.integral.
Proof.
  split; [| done].
  repeat constructor; simpl; done.
Qed.

Lemma totalVolume_inner_order_witness :
  totalVolume (profile 0 0 [] None (map toBinary64 Examples.integral))
    = totalVolume (profile 0 0 [] None (map toBinary64 Examples.integralReordered)).
Proof.
  apply (totalVolume_inner_order 0 0 [] None
           (map toBinary64 Examples.integral)
           (map toBinary64 Examples.integralReordered)).
  - exists Examples.integral. split; [apply integral_withinBinary64 | reflexivity].
  - constructor; [| constructor].
    repeat split.
    exists [exerciseToBinary64
              (Examples.oneExercise "bench" [Examples.oneSet 8 55; Examples.oneSet 10 50]);
            exerciseToBinary64 (Examples.oneExercise "squat" [Examples.oneSet 12 80])].
    split.
    + constructor; [| constructor; [| constructor]].
      * split; [reflexivity | apply perm_swap].
      * split; reflexivity.
    + apply perm_swap.
Defined.

(** The bound on the exact volume is needed: with integer weights whose
    volume passes 2^53 the additions round, and the order of the sets
    shows again (2^53 against 2^53 + 2). *)
Example totalVolume_set_order_beyond_2_53 :
  Forall2 innerReordered (map toBinary64 Examples.large)
    (map toBinary64 Examples.largeReordered) /\
  totalVolume (profile 0 0 [] None (map toBinary64 Examples.large))
    <> totalVolume (profile 0 0 [] None (map toBinary64 Examples.largeReordered)).
Proof.
  split.
  - constructor; [| constructor].
    repeat split. eexists. split; [| reflexivity].
    constructor; [| constructor].
    split; [reflexivity |].
    apply (Permutation_app_comm [_] [_; _]).
  - apply float_neq; vm_compute; reflexivity.
Qed.



Lemma twoWorkouts_withinBinary64 : withinBinary64 Examples.twoWorkouts.
Proof.
  split; [| done].
  repeat constructor; simpl; done.
Qed.


(** C6. The empty workout history yields [totalWorkouts = 0],
    [currentStreak = 0], no favorite exercise, [heaviestWeight = 0] and
    every sum 0 (in binary64 and in exact arithmetic alike); the day
    sequence is empty and there is no last workout date. *)
Theorem profile_empty {W : Type} {numW : Number W}
    (tzOffset now : Z) (exercises : list Exercise) (u : option User) :
  profile tzOffset now exercises u [] = {|
    user := u;
    totalWorkouts := 0;
    currentStreak := 0;
    days := [];
    lastWorkoutDate := None;
    totalDuration := 0;
    totalExercisesUsed := 0;
    totalSets := 0;
    totalReps := 0;
    totalVolume := num_of_int 0;
    heaviestWeight := num_of_int 0;
    favoriteExercise := None
  |} /\
  @num_of_int float _ 0 = 0%float /\
  @num_of_int Z _ 0 = 0.
Proof. repeat split. Qed.

(** ** The favorite exercise *)

(** C9. A history with at least one WorkoutRecord in which every
    WorkoutRecord has no WorkoutExerciseRecord leaves [favoriteExerciseId]
    unset, and [favoriteExercise] is absent. *)
Theorem favorite_absent_without_exercises {W : Type} {numW : Number W}
    (tzOffset now : Z) (exercises : list Exercise) (u : option User)
    (ws : list (Workout W)) :
  ws <> [] ->
  Forall (fun w => workoutExercises w = []) ws ->
  acc_exerciseFrequency (aggregate ws) = [] /\
  favoriteExerciseId ws = None /\
  favoriteExercise (profile tzOffset now exercises u ws) = None.
Proof.
  intros _ Hall.
  assert (Hnone : allExercises ws = []).
  { unfold allExercises. induction Hall as [| w ws Hw _ IH]; simpl; [done |].
    by rewrite Hw, IH. }
  assert (Hfreq : acc_exerciseFrequency (aggregate ws) = []).
  { rewrite aggregate_closed. simpl. unfold exerciseIdsInOrder. by rewrite Hnone. }
  assert (Hfav : favoriteExerciseId ws = None).
  { unfold favoriteExerciseId. by rewrite Hfreq. }
  split; [done |]. split; [done |].
  simpl. by rewrite Hfav.
Qed.

Lemma favorite_absent_without_exercises_witness :
  favoriteExercise
    (profile 0 0 [ {| ex_id := "bench"; ex_name := "Bench Press"; ex_category := "chest" |} ]
       None [Examples.workoutAt (W := Z) "w1" 0 []]) = None.
Proof.
  apply (favorite_absent_without_exercises 0 0 _ None
           [Examples.workoutAt (W := Z) "w1" 0 []]).
  - discriminate.
  - constructor; [reflexivity | constructor].
Defined.

(** ** The example of the specification *)

(** The day keys of workouts on today, today and yesterday. *)
Lemma uniqueSortedDateKeys_today_today_yesterday (tzOffset t1 t2 t3 : Z)
    (today : Utils.DayKey) :
  Utils.dayKey tzOffset t1 = today ->
  Utils.dayKey tzOffset t2 = today ->
  Utils.dayKey tzOffset t3 = today - 1 ->
  Utils.uniqueSortedDateKeys tzOffset
    [Build_WorkoutLite t1; Build_WorkoutLite t2; Build_WorkoutLite t3]
  = [today; today - 1].
Proof.
  intros H1 H2 H3.
  apply StronglySorted_gt_unique.
  - apply uniqueSortedDateKeys_descending.
  - repeat constructor. lia.
  - intros k. rewrite uniqueSortedDateKeys_elem. split.
    + intros (w & Hw & <-).
      rewrite !elem_of_cons in Hw.
      destruct Hw as [-> | [-> | [-> | Hw]]]; simpl.
      * rewrite H1. left.
      * rewrite H2. left.
      * rewrite H3. right. left.
      * by apply elem_of_nil in Hw.
    + rewrite !elem_of_cons. intros [-> | [-> | Hk]].
      * exists (Build_WorkoutLite t1). split; [left | done].
      * exists (Build_WorkoutLite t3). split; [right; right; left | done].
      * by apply elem_of_nil in Hk.
Qed.

(** C5. Three workouts on the day keys today, today and yesterday whose
    sets are (10 repetitions, 50), (8, 55) and (12, 80) give, in binary64
    arithmetic, [totalSets = 3], [totalReps = 30], [totalVolume = 1900],
    [heaviestWeight = 80] and [currentStreak = 2]. *)
Theorem profile_three_sets (tzOffset now : Z) (exercises : list Exercise)
    (u : option User) (wid1 wid2 wid3 e1 e2 e3 : string) (t1 t2 t3 : Z)
    (d1 d2 d3 : option Z) :
  Utils.dayKey tzOffset t1 = Utils.dayKey tzOffset now ->
  Utils.dayKey tzOffset t2 = Utils.dayKey tzOffset now ->
  Utils.dayKey tzOffset t3 = Utils.dayKey tzOffset now - 1 ->
  let p := profile tzOffset now exercises u
             (Examples.threeSets wid1 wid2 wid3 e1 e2 e3 t1 t2 t3 d1 d2 d3) in
  totalWorkouts p = 3 /\
  totalSets p = 3 /\
  totalReps p = 30 /\
  totalVolume p = 1900%float /\
  heaviestWeight p = 80%float /\
  currentStreak p = 2 /\
  days p = [Utils.dayKey tzOffset now; Utils.dayKey tzOffset now - 1].
Proof.
  intros H1 H2 H3 p. subst p.
  assert (Hdays : Utils.uniqueSortedDateKeys tzOffset
            (map (fun w : Workout float => {| lite_startedAt := startedAt w |})
               (Examples.threeSets wid1 wid2 wid3 e1 e2 e3 t1 t2 t3 d1 d2 d3))
          = [Utils.dayKey tzOffset now; Utils.dayKey tzOffset now - 1]).
  { by apply uniqueSortedDateKeys_today_today_yesterday. }
  split; [reflexivity |].
  split; [cbn [totalSets profile]; rewrite aggregate_closed; reflexivity |].
  split; [cbn [totalReps profile]; rewrite aggregate_closed; reflexivity |].
  split; [cbn [totalVolume profile]; rewrite aggregate_closed; reflexivity |].
  split; [cbn [heaviestWeight profile]; rewrite aggregate_closed; reflexivity |].
  split; [| exact Hdays].
  cbn [currentStreak profile]. unfold Utils.computeStreakFromWorkouts.
  rewrite Hdays. simpl.
  rewrite Z.eqb_refl. simpl. by rewrite Z.eqb_refl.
Qed.

Lemma profile_three_sets_witness :
  let p := profile 0 90000000 [] None
             (Examples.threeSets "w3" "w2" "w1" "bench" "bench" "squat"
                90000000 86400000 3600000 (Some 60) (Some 45) None) in
  totalVolume p = 1900%float /\ currentStreak p = 2.
Proof.
  destruct (profile_three_sets 0 90000000 [] None
              "w3" "w2" "w1" "bench" "bench" "squat"
              90000000 86400000 3600000 (Some 60) (Some 45) None
              eq_refl eq_refl eq_refl)
    as (_ & _ & _ & Hvolume & _ & Hstreak & _).
  split; [exact Hvolume | exact Hstreak].
Defined.

(** ** The frequency map *)

Lemma or_zero_default (x : option Z) : or_zero x = default 0 x.
Proof. destruct x as [c |]; simpl; [| done]. by destruct (Z.eqb_spec c 0). Qed.

Lemma map_get_set (m : FreqMap) (k k' : string) (v : Z) :
  map_get (map_set m k v) k' = if decide (k' = k) then Some v else map_get m k'.
Proof.
  induction m as [| [k0 v0] m IH]; simpl.
  - destruct (decide (k' = k)); [done |]. done.
  - destruct (decide (k = k0)) as [-> | Hne]; simpl.
    + destruct (decide (k' = k0)); done.
    + rewrite IH. destruct (decide (k' = k0)) as [-> | ?]; [| done].
      by rewrite decide_False.
Qed.

Lemma map_set_keys_present (m : FreqMap) (k : string) (v : Z) :
  k ∈ m.*1 -> (map_set m k v).*1 = m.*1.
Proof.
  induction m as [| [k0 v0] m IH]; simpl; intros Hk.
  - by apply elem_of_nil in Hk.
  - destruct (decide (k = k0)) as [-> | Hne]; simpl; [done |].
    f_equal. apply IH. apply elem_of_cons in Hk as [? | ?]; done.
Qed.

Lemma map_set_keys_absent (m : FreqMap) (k : string) (v : Z) :
  k ∉ m.*1 -> (map_set m k v).*1 = m.*1 ++ [k].
Proof.
  induction m as [| [k0 v0] m IH]; simpl; intros Hk; [done |].
  apply not_elem_of_cons in Hk as [Hne Hk].
  rewrite decide_False by done. simpl. f_equal. by apply IH.
Qed.

Lemma map_get_Some_elem (m : FreqMap) (k : string) (v : Z) :
  map_get m k = Some v -> (k, v) ∈ m.
Proof.
  induction m as [| [k0 v0] m IH]; simpl; [done |].
  destruct (decide (k = k0)) as [-> | Hne].
  - intros [= ->]. left.
  - intros Hget. right. by apply IH.
Qed.

Lemma map_get_of_elem (m : FreqMap) (k : string) (v : Z) :
  NoDup m.*1 -> (k, v) ∈ m -> map_get m k = Some v.
Proof.
  induction m as [| [k0 v0] m IH]; simpl; intros Hnd Hin.
  - by apply elem_of_nil in Hin.
  - apply NoDup_cons in Hnd as [Hk0 Hnd].
    apply elem_of_cons in Hin as [[= -> ->] | Hin].
    + by rewrite decide_True.
    + rewrite decide_False; [by apply IH |].
      intros ->. apply Hk0. apply list_elem_of_fmap. by exists (k0, v).
Qed.

Lemma frequency_snoc (ids : list string) (x e : string) :
  frequency (ids ++ [x]) e = frequency ids e + (if decide (e = x) then 1 else 0).
Proof.
  unfold frequency. rewrite filter_app, length_app.
  destruct (decide (e = x)) as [-> | Hne].
  - rewrite filter_cons_True by done. simpl. lia.
  - rewrite filter_cons_False by congruence. simpl. lia.
Qed.

Lemma frequency_absent (ids : list string) (e : string) :
  e ∉ ids -> frequency ids e = 0.
Proof.
  unfold frequency. induction ids as [| x ids IH]; intros He; [done |].
  apply not_elem_of_cons in He as [Hne He].
  rewrite filter_cons_False by congruence. by apply IH.
Qed.

Lemma frequency_present (ids : list string) (e : string) :
  e ∈ ids -> 1 <= frequency ids e.
Proof.
  unfold frequency. induction ids as [| x ids IH]; intros He.
  - by apply elem_of_nil in He.
  - destruct (decide (x = e)) as [-> | Hne].
    + rewrite filter_cons_True by done. simpl. lia.
    + rewrite filter_cons_False by done.
      apply elem_of_cons in He as [-> | He]; [done | by apply IH].
Qed.

Lemma counted_fold (ids : list string) :
  counted ids (fold_left frequencyStep ids []).
Proof.
  induction ids as [| x ids IH] using rev_ind.
  - repeat split; simpl; try done.
    + constructor.
    + intros ks1 k ks2 Heq. by destruct ks1.
  - rewrite fold_left_app. simpl.
    set (m := fold_left frequencyStep ids []) in *.
    destruct IH as (Hget & Hnd & Hkeys & Horder).
    unfold frequencyStep. split; [| split; [| split]].
    + intros k. rewrite map_get_set, frequency_snoc, or_zero_default.
      destruct (decide (k = x)) as [-> | Hne].
      * rewrite (decide_True (P := x ∈ ids ++ [x]))
          by (apply elem_of_app; right; left).
        rewrite (Hget x).
        destruct (decide (x ∈ ids)) as [Hin | Hout]; simpl; [done |].
        by rewrite frequency_absent.
      * rewrite (Hget k), Z.add_0_r.
        destruct (decide (k ∈ ids)) as [Hin | Hout].
        -- by rewrite (decide_True (P := k ∈ ids ++ [x]))
             by (apply elem_of_app; by left).
        -- rewrite (decide_False (P := k ∈ ids ++ [x])); [done |].
           rewrite elem_of_app, list_elem_of_singleton. tauto.
    + destruct (decide (x ∈ m.*1)) as [Hin | Hout].
      * by rewrite map_set_keys_present.
      * rewrite map_set_keys_absent by done.
        apply NoDup_app. split; [done |]. split; [| apply NoDup_singleton].
        intros y Hy Hy'. apply list_elem_of_singleton in Hy' as ->. done.
    + intros k. rewrite elem_of_app, list_elem_of_singleton, <- Hkeys.
      destruct (decide (x ∈ m.*1)) as [Hin | Hout].
      * rewrite map_set_keys_present by done.
        split; [tauto | intros [? | ->]; done].
      * rewrite map_set_keys_absent by done.
        by rewrite elem_of_app, list_elem_of_singleton.
    + intros ks1 k ks2.
      destruct (decide (x ∈ m.*1)) as [Hin | Hout].
      * rewrite map_set_keys_present by done. intros Heq.
        destruct (Horder _ _ _ Heq) as (before & after & -> & Hk & Hbefore).
        exists before, (after ++ [x]). split; [| done].
        by rewrite <- app_assoc.
      * rewrite map_set_keys_absent by done.
        destruct ks2 as [| y ks2 _] using rev_ind; intros Heq.
        -- apply app_inj_tail in Heq as [Heq ->].
           exists ids, []. split; [done |]. split.
           ++ by rewrite <- Hkeys.
           ++ intros y Hy. rewrite <- Heq. by apply Hkeys.
        -- rewrite app_comm_cons, app_assoc in Heq.
           apply app_inj_tail in Heq as [Heq ->].
           destruct (Horder _ _ _ Heq) as (before & after & -> & Hk & Hbefore).
           exists before, (after ++ [y]). split; [| done].
           by rewrite <- app_assoc.
Qed.

(** The scan of the frequency map: either no entry exceeds the initial
    maximum and the state is unchanged, or the result is the first entry
    that carries the greatest count. *)
Lemma fold_favoriteStep (m : FreqMap) (st : option string * Z) :
  (fold_left favoriteStep m st = st /\ Forall (fun e => e.2 <= st.2) m) \/
  (exists m1 k v m2,
     m = m1 ++ (k, v) :: m2 /\
     fold_left favoriteStep m st = (Some k, v) /\
     st.2 < v /\
     Forall (fun e => e.2 < v) m1 /\
     Forall (fun e => e.2 <= v) m2).
Proof.
  revert st. induction m as [| [k v] m IH]; intros st; simpl.
  - left. by split.
  - destruct (Z.gtb_spec v st.2) as [Hgt | Hle].
    + right. destruct (IH (Some k, v)) as [[Hr Hall] | (m1 & k' & v' & m2 & -> & Hr & Hlt & H1 & H2)].
      * exists [], k, v, m. simpl in *. repeat split; try done. 
      * exists ((k, v) :: m1), k', v', m2. simpl in *.
        repeat split; try done; [lia |]. by constructor.
    + destruct (IH st) as [[Hr Hall] | (m1 & k' & v' & m2 & -> & Hr & Hlt & H1 & H2)].
      * left. split; [done |]. by constructor.
      * right. exists ((k, v) :: m1), k', v', m2. simpl.
        repeat split; try done. constructor; [simpl; lia | done].
Qed.

Lemma findUnique_none (exercises : list Exercise) (key : string) :
  Forall (fun e => ex_id e <> key) exercises -> findUnique exercises key = None.
Proof.
  unfold findUnique. induction 1 as [| e exercises He _ IH]; simpl; [done |].
  by rewrite bool_decide_false.
Qed.

Lemma findUnique_some (exercises : list Exercise) (key : string) (ex : Exercise) :
  findUnique exercises key = Some ex -> ex ∈ exercises /\ ex_id ex = key.
Proof.
  unfold findUnique. intros Hfind. apply find_some in Hfind as [Hin Hid].
  split; [by apply list_elem_of_In | by apply bool_decide_eq_true in Hid].
Qed.

Section Favorite.

Context {W : Type} {numW : Number W}.

Lemma exerciseFrequency_counted (ws : list (Workout W)) :
  counted (exerciseIdsInOrder ws) (acc_exerciseFrequency (aggregate ws)).
Proof. rewrite aggregate_closed. simpl. apply counted_fold. Qed.

(** C4. The frequency map counts every exercise identifier once per
    WorkoutExerciseRecord that carries it (sets play no part).  When the
    history has at least one WorkoutExerciseRecord, [favoriteExerciseId] is
    an identifier of greatest count, and every identifier encountered
    before its first occurrence has a strictly smaller count: among the
    identifiers that tie on the greatest count the first encountered wins.
    The choice depends on the sequence of identifiers only, and a favorite
    exercise in the response is the table row of that identifier. *)
Theorem favorite_first_most_frequent (ws : list (Workout W)) :
  let ids := exerciseIdsInOrder ws in
  (forall e, map_get (acc_exerciseFrequency (aggregate ws)) e
             = if decide (e ∈ ids) then Some (frequency ids e) else None) /\
  (ids = [] -> favoriteExerciseId ws = None) /\
  (ids <> [] ->
     exists e before after,
       favoriteExerciseId ws = Some e /\
       ids = before ++ e :: after /\
       (e ∉ before) /\
       (forall e', frequency ids e' <= frequency ids e) /\
       (forall e', e' ∈ before -> frequency ids e' < frequency ids e)) /\
  (forall (W' : Type) (numW' : Number W') (ws' : list (Workout W')),
     exerciseIdsInOrder ws' = ids -> favoriteExerciseId ws' = favoriteExerciseId ws) /\
  (forall tzOffset now exercises u ex,
     favoriteExercise (profile tzOffset now exercises u ws) = Some ex ->
     ex ∈ exercises /\ favoriteExerciseId ws = Some (ex_id ex)).
Proof.
  intros ids.
  destruct (exerciseFrequency_counted ws) as (Hget & Hnd & Hkeys & Horder).
  fold ids in Hget, Hkeys, Horder.
  split; [exact Hget |]. split; [| split; [| split]].
  - intros Hnil. unfold favoriteExerciseId.
    rewrite aggregate_closed. simpl. fold ids. by rewrite Hnil.
  - intros Hne. unfold favoriteExerciseId, pickFavorite.
    set (m := acc_exerciseFrequency (aggregate ws)) in *.
    assert (Hval : forall k v, (k, v) ∈ m -> k ∈ ids /\ v = frequency ids k).
    { intros k v Hin. apply map_get_of_elem in Hin; [| done].
      rewrite Hget in Hin. destruct (decide (k ∈ ids)); [| done].
      by injection Hin as <-. }
    assert (Hentry : forall k, k ∈ ids -> (k, frequency ids k) ∈ m).
    { intros k Hk. apply map_get_Some_elem. rewrite Hget. by rewrite decide_True. }
    destruct (fold_favoriteStep m (None, 0))
      as [[_ Hall] | (m1 & e & v & m2 & Hm & Hr & Hpos & H1 & H2)].
    + exfalso. destruct ids as [| x ids']; [done |].
      assert (Hx : x ∈ x :: ids') by left.
      pose proof (frequency_present _ _ Hx) as Hfreq.
      rewrite Forall_forall in Hall.
      specialize (Hall _ (Hentry _ Hx)). simpl in Hall. lia.
    + rewrite Hr. simpl in Hpos |- *.
      assert (Hkeysplit : m.*1 = m1.*1 ++ e :: m2.*1).
      { rewrite Hm. by rewrite fmap_app. }
      destruct (Horder _ _ _ Hkeysplit) as (before & after & Hids & Hfirst & Hbefore).
      assert (He : (e, v) ∈ m).
      { rewrite Hm. apply elem_of_app. right. left. }
      destruct (Hval _ _ He) as [Heids ->].
      rewrite Forall_forall in H1, H2.
      exists e, before, after. repeat split; try done.
      * intros e'. destruct (decide (e' ∈ ids)) as [Hin | Hout].
        -- pose proof (Hentry _ Hin) as Hin'.
           rewrite Hm in Hin'.
           apply elem_of_app in Hin' as [Hin' | Hin'].
           ++ specialize (H1 _ Hin'). simpl in H1. lia.
           ++ apply elem_of_cons in Hin' as [[= -> _] | Hin']; [lia |].
              specialize (H2 _ Hin'). simpl in H2. lia.
        -- rewrite (frequency_absent _ _ Hout). lia.
      * intros e' He'.
        apply Hbefore, list_elem_of_fmap in He' as ([k' v'] & -> & Hin).
        specialize (H1 _ Hin). simpl in H1 |- *.
        assert (Hin' : (k', v') ∈ m).
        { rewrite Hm. apply elem_of_app. by left. }
        destruct (Hval _ _ Hin') as [_ ->]. done.
  - intros W' numW' ws' Hsame. unfold favoriteExerciseId.
    rewrite !aggregate_closed. simpl. fold ids. by rewrite Hsame.
  - intros tzOffset now exercises u ex. simpl.
    destruct (favoriteExerciseId ws) as [fid |]; simpl; [| done].
    destruct (decide (fid = EmptyString)); [done |].
    intros Hfind. apply findUnique_some in Hfind as [Hin <-]. done.
Qed.

End Favorite.

Lemma favorite_first_most_frequent_witness :
  exists e before after,
    favoriteExerciseId Examples.twoWorkouts = Some e /\
    exerciseIdsInOrder Examples.twoWorkouts = before ++ e :: after /\
    (e ∉ before) /\
    (forall e', frequency (exerciseIdsInOrder Examples.twoWorkouts) e'
                <= frequency (exerciseIdsInOrder Examples.twoWorkouts) e) /\
    (forall e', e' ∈ before ->
                frequency (exerciseIdsInOrder Examples.twoWorkouts) e'
                < frequency (exerciseIdsInOrder Examples.twoWorkouts) e).
Proof.
  destruct (favorite_first_most_frequent Examples.twoWorkouts)
    as (_ & _ & Hfav & _).
  apply Hfav. discriminate.
Defined.

(** ** Missing metadata *)

(** C7. When no row of the exercise table carries the determined favorite
    identifier, the handler still answers 200: [favoriteExercise] is absent
    and every other statistic is the one computed from the workouts, the
    same as with any other exercise table. *)
Theorem favorite_metadata_missing {W : Type} {numW : Number W}
    (tzOffset now : Z) (exercises : list Exercise) (reqUser : string)
    (u : option User) (ws : list (Workout W)) (fid : string) :
  reqUser <> EmptyString ->
  favoriteExerciseId ws = Some fid ->
  Forall (fun e => ex_id e <> fid) exercises ->
  let p := profile tzOffset now exercises u ws in
  me tzOffset now exercises (Some reqUser) u ws = Json200 p /\
  favoriteExercise p = None /\
  forall exercises',
    let p' := profile tzOffset now exercises' u ws in
    user p = user p' /\
    totalWorkouts p = totalWorkouts p' /\
    currentStreak p = currentStreak p' /\
    days p = days p' /\
    lastWorkoutDate p = lastWorkoutDate p' /\
    totalDuration p = totalDuration p' /\
    totalExercisesUsed p = totalExercisesUsed p' /\
    totalSets p = totalSets p' /\
    totalReps p = totalReps p' /\
    totalVolume p = totalVolume p' /\
    heaviestWeight p = heaviestWeight p'.
Proof.
  intros Huser Hfav Hmissing p. subst p. split; [| split].
  - unfold me. simpl. by rewrite decide_False.
  - simpl. rewrite Hfav. simpl.
    destruct (decide (fid = EmptyString)); [done |].
    by apply findUnique_none.
  - intros exercises'. simpl. repeat split.
Qed.

Lemma favorite_metadata_missing_witness :
  favoriteExercise
    (profile 0 0
       [ {| ex_id := "bench"; ex_name := "Bench Press"; ex_category := "chest" |} ]
       None Examples.twoWorkouts) = None.
Proof.
  destruct (favorite_metadata_missing 0 0
              [ {| ex_id := "bench"; ex_name := "Bench Press"; ex_category := "chest" |} ]
              "user-1" None Examples.twoWorkouts "squat") as (_ & Habsent & _).
  - discriminate.
  - reflexivity.
  - constructor; [discriminate | constructor].
  - exact Habsent.
Defined.

(** The tie-break on a concrete history: squat and bench are both used
    twice, squat is encountered first and wins although bench carries the
    heavier sets. *)
Example favorite_tie_break :
  favoriteExerciseId
    [Examples.workoutAt "w4" 259200000 [Examples.oneExercise "squat" [Examples.oneSet 5 20]];
     Examples.workoutAt "w3" 172800000 [Examples.oneExercise "bench" [Examples.oneSet 10 100]];
     Examples.workoutAt "w2" 86400000 [Examples.oneExercise "bench" [Examples.oneSet 10 100]];
     Examples.workoutAt "w1" 0 [Examples.oneExercise "squat" [Examples.oneSet 5 20]]]
  = Some "squat".
Proof. reflexivity. Qed.

(** * Further properties of the handler *)

(** ** Counting sets and repetitions *)

Section Totals.

Context {W : Type} {numW : Number W}.


Lemma fold_repsStep (ss : list (SetRecord W)) (r : Z) :
  fold_left repsStep ss r = r + sumZ (map repetitions ss).
Proof.
  revert r. induction ss as [| s ss IH]; intros r; simpl; [lia |].
  rewrite IH. unfold repsStep. lia.
Qed.

Lemma fold_sumDuration (ws : list (Workout W)) (a : Z) :
  fold_left (fun acc w => acc + default 0 (durationMinutes w)) ws a
  = a + sumZ (map (fun w => default 0 (durationMinutes w)) ws).
Proof.
  revert a. induction ws as [| w ws IH]; intros a; simpl; [lia |].
  rewrite IH. lia.
Qed.



End Totals.

(** ** The heaviest weight *)

(** In the binary64 arithmetic of the handler, whatever the weights
    (fractions, negative numbers, infinities, values that are not numbers):
    [heaviestWeight] is not below 0, no set of the history is heavier than
    it, and it is either 0 or a weight above 0 carried by one of the sets. *)
Theorem heaviestWeight_is_maximum (tzOffset now : Z) (exercises : list Exercise)
    (u : option User) (ws : list (Workout float)) :
  let hw := heaviestWeight (profile tzOffset now exercises u ws) in
  num_gt (num_of_int 0) hw = false /\
  (forall s, s ∈ allSets ws -> num_gt (weight s) hw = false) /\
  (hw = num_of_int 0 \/
   (num_gt hw (num_of_int 0) = true /\ exists s, s ∈ allSets ws /\ weight s = hw)).
Proof.
  change (heaviestWeight (profile tzOffset now exercises u ws))
    with (acc_heaviestWeight (aggregate ws)).
  rewrite aggregate_closed. cbn [acc_heaviestWeight].
  apply (fold_heaviestStep_bound (allSets ws) (num_of_int 0)).
Qed.

(** ** Integer-valued weights *)

Lemma heaviestStep_max (h : Z) (s : SetRecord Z) :
  heaviestStep h s = Z.max h (weight s).
Proof. unfold heaviestStep. simpl. destruct (Z.gtb_spec (weight s) h); lia. Qed.

Lemma fold_heaviestStep_max (ss : list (SetRecord Z)) (a b : Z) :
  fold_left heaviestStep ss (Z.max a b) = Z.max a (fold_left heaviestStep ss b).
Proof.
  revert b. induction ss as [| s ss IH]; intros b; simpl; [done |].
  rewrite !heaviestStep_max, <- Z.max_assoc. apply IH.
Qed.

Lemma fold_heaviestStep_ge (ss : list (SetRecord Z)) (h : Z) :
  h <= fold_left heaviestStep ss h.
Proof.
  revert h. induction ss as [| s ss IH]; intros h; simpl; [done |].
  specialize (IH (heaviestStep h s)). rewrite heaviestStep_max in *. lia.
Qed.

Lemma stats_bounds_Z (ss : list (SetRecord Z)) :
  Forall (fun s => 0 <= repetitions s /\ 0 <= weight s) ss ->
  0 <= fold_left repsStep ss 0 /\
  0 <= fold_left heaviestStep ss 0 /\
  0 <= fold_left volumeStep ss 0
    <= fold_left repsStep ss 0 * fold_left heaviestStep ss 0.
Proof.
  induction ss as [| s ss IH] using rev_ind; intros Hall; simpl; [lia |].
  apply Forall_app in Hall as [Hall Hs]. apply Forall_inv in Hs.
  rewrite !fold_left_app. simpl. specialize (IH Hall).
  set (r := fold_left repsStep ss 0) in *.
  set (h := fold_left heaviestStep ss 0) in *.
  set (v := fold_left volumeStep ss 0) in *.
  rewrite heaviestStep_max. unfold repsStep, volumeStep. simpl.
  destruct Hs as [Hreps Hw], IH as (Hr & Hh & Hv1 & Hv2).
  destruct (Z.max_spec h (weight s)) as [[Hlt ->] | [Hle ->]]; nia.
Qed.

Lemma withinBinary64_nonneg (zs : list (Workout Z)) :
  withinBinary64 zs ->
  Forall (fun s : SetRecord Z => 0 <= repetitions s /\ 0 <= weight s) (allSets zs).
Proof.
  intros [Hall _]. eapply Forall_impl; [exact Hall |]. simpl. intros s [? ?]. lia.
Qed.

Lemma allSets_app {W : Type} (ws1 ws2 : list (Workout W)) :
  allSets (ws1 ++ ws2) = allSets ws1 ++ allSets ws2.
Proof. unfold allSets, allExercises. by rewrite !flat_map_app. Qed.

Lemma withinBinary64_app (zs1 zs2 : list (Workout Z)) :
  withinBinary64 (zs1 ++ zs2) -> withinBinary64 zs1 /\ withinBinary64 zs2.
Proof.
  unfold withinBinary64. rewrite allSets_app, exactVolume_app.
  intros [[H1 H2]%Forall_app Hsum].
  pose proof (exactVolume_nonneg _ H1). pose proof (exactVolume_nonneg _ H2).
  repeat split; (done || lia).
Qed.

(** Over exact integers the volumes of two histories add up and the
    heaviest weight is the greater of the two. *)
Lemma concatenation_Z (tzOffset now : Z) (exercises : list Exercise)
    (u : option User) (zs1 zs2 : list (Workout Z)) :
  let p := profile tzOffset now exercises u (zs1 ++ zs2) in
  let p1 := profile tzOffset now exercises u zs1 in
  let p2 := profile tzOffset now exercises u zs2 in
  totalVolume p = totalVolume p1 + totalVolume p2 /\
  heaviestWeight p = Z.max (heaviestWeight p1) (heaviestWeight p2).
Proof.
  simpl. rewrite !aggregate_closed. simpl.
  rewrite allSets_app, !fold_left_app.
  split; [rewrite !fold_volumeStep_Z; lia |].
  pose proof (fold_heaviestStep_ge (allSets zs1) 0) as H0.
  rewrite <- (Z.max_l _ _ H0) at 1. apply fold_heaviestStep_max.
Qed.

(** The totals of an integer-valued history, computed in binary64, are
    the exact ones: the reply is the image of the reply over exact
    integers, [totalVolume] is the number [exactVolume], the sum of
    repetitions times weight over all sets, and that sum lies between 0
    and [totalReps] times the heaviest weight.  In binary64 itself
    [totalVolume] is not below 0 and, when [totalReps] and [totalReps]
    times the heaviest weight stay below 2^53, not above their product. *)
Theorem totalVolume_bounds (tzOffset now : Z) (exercises : list Exercise)
    (u : option User) (zs : list (Workout Z)) :
  withinBinary64 zs ->
  let p := profile tzOffset now exercises u (map toBinary64 zs) in
  let pz := profile tzOffset now exercises u zs in
  p = profileToBinary64 pz /\
  totalVolume pz = exactVolume (allSets zs) /\
  0 <= totalReps p /\
  0 <= totalVolume pz <= totalReps p * heaviestWeight pz /\
  num_gt (num_of_int 0) (totalVolume p) = false /\
  (totalReps p < 2 ^ 53 -> totalReps p * heaviestWeight pz < 2 ^ 53 ->
   num_gt (totalVolume p) (num_mul (num_of_int (totalReps p)) (heaviestWeight p)) = false).
Proof.
  intros Hzs p pz.
  assert (Hp : p = profileToBinary64 pz) by by apply profile_binary64.
  assert (Hvol : totalVolume pz = exactVolume (allSets zs)).
  { subst pz. simpl. rewrite aggregate_closed. simpl. by rewrite fold_volumeStep_Z. }
  assert (Hb : 0 <= totalReps pz /\ 0 <= heaviestWeight pz < 2 ^ 53 /\
               0 <= totalVolume pz <= totalReps pz * heaviestWeight pz).
  { subst pz. simpl. rewrite aggregate_closed. simpl.
    pose proof (stats_bounds_Z _ (withinBinary64_nonneg _ Hzs)) as (? & ? & ?).
    destruct Hzs as [Hall _].
    pose proof (fold_heaviestStep_Z_range (allSets zs) 0 Hall ltac:(lia)).
    repeat split; (done || lia). }
  destruct Hb as (Hreps & Hheaviest & Hv).
  assert (Hlt : totalVolume pz < 2 ^ 53).
  { rewrite Hvol. by destruct Hzs. }
  split; [done |]. split; [done |].
  rewrite Hp. cbn [profileToBinary64 totalReps totalVolume heaviestWeight].
  split; [done |]. split; [done |]. split.
  - change (PrimFloat.ltb (float_of_Z (totalVolume pz)) (float_of_Z 0) = false).
    rewrite ltb_exact by lia. apply Z.ltb_ge. lia.
  - intros HR HRH.
    change (PrimFloat.ltb
              (PrimFloat.mul (float_of_Z (totalReps pz)) (float_of_Z (heaviestWeight pz)))
              (float_of_Z (totalVolume pz)) = false).
    rewrite mul_exact, ltb_exact by lia. apply Z.ltb_ge. lia.
Qed.

Lemma totalVolume_bounds_witness :
  totalVolume (profile 0 0 [] None (map toBinary64 Examples.twoWorkouts))
    = float_of_Z (totalVolume (profile 0 0 [] None Examples.twoWorkouts)) /\
  totalVolume (profile 0 0 [] None Examples.twoWorkouts)
    = exactVolume (allSets Examples.twoWorkouts) /\
  num_gt (num_of_int 0)
    (totalVolume (profile 0 0 [] None (map toBinary64 Examples.twoWorkouts))) = false.
Proof.
  destruct (totalVolume_bounds 0 0 [] None Examples.twoWorkouts
              twoWorkouts_withinBinary64) as (Hp & Hv & _ & _ & H0 & _).
  split; [by rewrite Hp |]. split; [exact Hv | exact H0].
Defined.

(** The statistics of two histories fetched one after the other, computed
    in binary64: when the whole history is integer-valued (natural weights
    and repetition counts, exact total volume below 2^53), the volumes add
    up and the heaviest weight is the greater of the two. *)
Theorem volume_of_concatenation (tzOffset now : Z) (exercises : list Exercise)
    (u : option User) (ws1 ws2 : list (Workout float)) :
  integerValued (ws1 ++ ws2) ->
  let p := profile tzOffset now exercises u (ws1 ++ ws2) in
  let p1 := profile tzOffset now exercises u ws1 in
  let p2 := profile tzOffset now exercises u ws2 in
  totalVolume p = num_add (totalVolume p1) (totalVolume p2) /\
  heaviestWeight p =
    (if num_gt (heaviestWeight p2) (heaviestWeight p1)
     then heaviestWeight p2 else heaviestWeight p1).
Proof.
  intros (zs & Hzs & Heq) p p1 p2. symmetry in Heq.
  apply map_eq_app in Heq as (zs1 & zs2 & -> & <- & <-).
  destruct (withinBinary64_app _ _ Hzs) as [Hzs1 Hzs2].
  subst p p1 p2. rewrite <- map_app.
  rewrite !profile_binary64 by done.
  cbn [profileToBinary64 totalVolume heaviestWeight].
  assert (Hsum : totalVolume (profile tzOffset now exercises u (zs1 ++ zs2)) < 2 ^ 53).
  { simpl. rewrite aggregate_closed. simpl. rewrite fold_volumeStep_Z.
    destruct Hzs as [_ Hsum]. lia. }
  destruct (concatenation_Z tzOffset now exercises u zs1 zs2) as [HV HH].
  cbv zeta in HV, HH. rewrite HV in Hsum. rewrite HV, HH. clear HV HH.
  set (p1 := profile tzOffset now exercises u zs1) in *.
  set (p2 := profile tzOffset now exercises u zs2) in *.
  assert (Hb : forall zs', withinBinary64 zs' ->
            0 <= totalVolume (profile tzOffset now exercises u zs') /\
            0 <= heaviestWeight (profile tzOffset now exercises u zs') < 2 ^ 53).
  { intros zs' Hzs'. simpl. rewrite aggregate_closed. simpl.
    pose proof (stats_bounds_Z _ (withinBinary64_nonneg _ Hzs')) as (? & ? & ?).
    destruct Hzs' as [Hall _].
    pose proof (fold_heaviestStep_Z_range (allSets zs') 0 Hall ltac:(lia)). lia. }
  destruct (Hb zs1 Hzs1) as [Hv1 Hh1]. destruct (Hb zs2 Hzs2) as [Hv2 Hh2].
  fold p1 p2 in Hv1, Hh1, Hv2, Hh2.
  split.
  - change (float_of_Z (totalVolume p1 + totalVolume p2)
            = PrimFloat.add (float_of_Z (totalVolume p1)) (float_of_Z (totalVolume p2))).
    by rewrite add_exact.
  - change (float_of_Z (Z.max (heaviestWeight p1) (heaviestWeight p2))
            = if PrimFloat.ltb (float_of_Z (heaviestWeight p1)) (float_of_Z (heaviestWeight p2))
              then float_of_Z (heaviestWeight p2) else float_of_Z (heaviestWeight p1)).
    rewrite ltb_exact by done.
    destruct (Z.ltb_spec (heaviestWeight p1) (heaviestWeight p2)); f_equal; lia.
Qed.

Lemma volume_of_concatenation_witness :
  totalVolume (profile 0 0 [] None (map toBinary64 Examples.twoWorkouts))
  = num_add
      (totalVolume (profile 0 0 [] None (map toBinary64 (take 1 Examples.twoWorkouts))))
      (totalVolume (profile 0 0 [] None (map toBinary64 (drop 1 Examples.twoWorkouts)))).
Proof.
  destruct (volume_of_concatenation 0 0 [] None
              (map toBinary64 (take 1 Examples.twoWorkouts))
              (map toBinary64 (drop 1 Examples.twoWorkouts))) as [Hv _].
  - exists Examples.twoWorkouts.
    split; [apply twoWorkouts_withinBinary64 | reflexivity].
  - exact Hv.
Defined.

(** ** The set of identifiers and the frequency map *)

Section Distinct.

Context {W : Type} {numW : Number W}.

Lemma fold_collect (wes : list (WorkoutExercise W)) (ids : gset string) :
  fold_left (fun ids' we => {[exerciseId we]} ∪ ids') wes ids
  = list_to_set (map exerciseId wes) ∪ ids.
Proof.
  revert ids. induction wes as [| we wes IH]; intros ids; simpl.
  - by rewrite (left_id_L ∅ (∪)).
  - rewrite IH, (assoc_L (∪)). f_equal. apply (comm_L (∪)).
Qed.

Lemma size_list_to_set_remove_dups (l : list string) :
  size (list_to_set (C := gset string) l) = length (remove_dups l).
Proof.
  rewrite <- (size_list_to_set (C := gset string) (remove_dups l))
    by apply NoDup_remove_dups.
  f_equal. apply set_eq. intros x.
  by rewrite !elem_of_list_to_set, elem_of_remove_dups.
Qed.

(** [totalExercisesUsed], the size of the set filled by the first loop, is
    the number of keys the second loop leaves in the frequency map: the
    number of distinct identifiers, which is at most the number of
    WorkoutExerciseRecords. *)
Theorem totalExercisesUsed_distinct (tzOffset now : Z) (exercises : list Exercise)
    (u : option User) (ws : list (Workout W)) :
  let used := totalExercisesUsed (profile tzOffset now exercises u ws) in
  used = Z.of_nat (length (remove_dups (exerciseIdsInOrder ws))) /\
  used = Z.of_nat (length (acc_exerciseFrequency (aggregate ws))) /\
  used <= Z.of_nat (length (allExercises ws)).
Proof.
  simpl. rewrite collectExerciseIds_closed, fold_collect, (right_id_L ∅ (∪)).
  fold (exerciseIdsInOrder ws). rewrite size_list_to_set_remove_dups.
  destruct (exerciseFrequency_counted ws) as (_ & Hnd & Hkeys & _).
  split; [done |]. split.
  - f_equal. rewrite <- (length_fmap fst (acc_exerciseFrequency (aggregate ws))).
    apply Permutation_length, NoDup_Permutation;
      [apply NoDup_remove_dups | done |].
    intros x. by rewrite elem_of_remove_dups, Hkeys.
  - apply inj_le. rewrite <- (length_map exerciseId (allExercises ws)).
    apply submseteq_length, NoDup_submseteq; [apply NoDup_remove_dups |].
    intros x. by rewrite elem_of_remove_dups.
Qed.

End Distinct.

Lemma sumCounts_map_set (m : FreqMap) (k : string) (v : Z) :
  sumCounts (map_set m k v) = sumCounts m - default 0 (map_get m k) + v.
Proof.
  induction m as [| [k0 v0] m IH]; simpl; [lia |].
  destruct (decide (k = k0)) as [-> | Hne]; simpl; [lia |].
  rewrite IH. lia.
Qed.

Lemma sumCounts_fold (ids : list string) (m : FreqMap) :
  sumCounts (fold_left frequencyStep ids m) = sumCounts m + Z.of_nat (length ids).
Proof.
  revert m. induction ids as [| x ids IH]; intros m; simpl; [lia |].
  rewrite IH. unfold frequencyStep.
  rewrite sumCounts_map_set, or_zero_default. lia.
Qed.

(** The counts of the frequency map add up to the number of
    WorkoutExerciseRecords of the history, and every count is at least 1. *)
Theorem frequency_counts_total {W : Type} {numW : Number W} (ws : list (Workout W)) :
  sumCounts (acc_exerciseFrequency (aggregate ws)) = Z.of_nat (length (allExercises ws)) /\
  Forall (fun e => 1 <= e.2) (acc_exerciseFrequency (aggregate ws)).
Proof.
  split.
  - rewrite aggregate_closed. simpl. rewrite sumCounts_fold. simpl.
    unfold exerciseIdsInOrder. by rewrite length_map.
  - destruct (exerciseFrequency_counted ws) as (Hget & Hnd & Hkeys & _).
    apply Forall_forall. intros [k v] Hin. simpl.
    pose proof (map_get_of_elem _ _ _ Hnd Hin) as Hk.
    rewrite Hget in Hk.
    destruct (decide (k ∈ exerciseIdsInOrder ws)) as [Hk' | ]; [| done].
    injection Hk as <-. by apply frequency_present.
Qed.

(** ** When the favorite does not depend on the order *)

Section FavoriteOrder.

Context {W : Type} {numW : Number W}.

Lemma favoriteExerciseId_none_iff (ws : list (Workout W)) :
  favoriteExerciseId ws = None <-> allExercises ws = [].
Proof.
  destruct (exerciseFrequency_counted ws) as (Hget & Hnd & Hkeys & _).
  unfold favoriteExerciseId, pickFavorite.
  set (m := acc_exerciseFrequency (aggregate ws)) in *.
  split.
  - intros Hnone.
    destruct (fold_favoriteStep m (None, 0))
      as [[_ Hall] | (m1 & e & v & m2 & _ & Hr & _)].
    + destruct (allExercises ws) as [| we wes] eqn:Hwes; [done |]. exfalso.
      assert (Hin : exerciseId we ∈ exerciseIdsInOrder ws).
      { unfold exerciseIdsInOrder. rewrite Hwes. left. }
      pose proof (frequency_present _ _ Hin) as Hfreq.
      pose proof (Hget (exerciseId we)) as Hg. rewrite decide_True in Hg by done.
      apply map_get_Some_elem in Hg.
      rewrite Forall_forall in Hall. specialize (Hall _ Hg). simpl in Hall. lia.
    + rewrite Hr in Hnone. done.
  - intros Hnil. subst m. rewrite aggregate_closed. simpl.
    unfold exerciseIdsInOrder. by rewrite Hnil.
Qed.

Lemma favoriteExerciseId_max (ws : list (Workout W)) (e : string) :
  favoriteExerciseId ws = Some e ->
  e ∈ exerciseIdsInOrder ws /\
  forall e', frequency (exerciseIdsInOrder ws) e' <= frequency (exerciseIdsInOrder ws) e.
Proof.
  destruct (exerciseFrequency_counted ws) as (Hget & Hnd & Hkeys & _).
  unfold favoriteExerciseId, pickFavorite.
  set (m := acc_exerciseFrequency (aggregate ws)) in *.
  set (ids := exerciseIdsInOrder ws) in *.
  destruct (fold_favoriteStep m (None, 0))
    as [[Hr _] | (m1 & k & v & m2 & Hm & Hr & Hpos & H1 & H2)];
    rewrite Hr; simpl; [done |].
  intros [= ->].
  assert (He : (e, v) ∈ m) by (rewrite Hm; apply elem_of_app; right; left).
  pose proof (map_get_of_elem _ _ _ Hnd He) as Hv. rewrite Hget in Hv.
  destruct (decide (e ∈ ids)) as [Hein |]; [| done]. injection Hv as <-.
  split; [done |]. intros e'.
  destruct (decide (e' ∈ ids)) as [Hin | Hout].
  - pose proof (Hget e') as Hg. rewrite decide_True in Hg by done.
    apply map_get_Some_elem in Hg. rewrite Hm in Hg.
    rewrite Forall_forall in H1, H2.
    apply elem_of_app in Hg as [Hg | Hg].
    + specialize (H1 _ Hg). simpl in H1. lia.
    + apply elem_of_cons in Hg as [[= -> _] | Hg]; [lia |].
      specialize (H2 _ Hg). simpl in H2. lia.
  - rewrite (frequency_absent _ _ Hout). simpl in Hpos. lia.
Qed.

Lemma frequency_Permutation (ids ids' : list string) (e : string) :
  ids ≡ₚ ids' -> frequency ids e = frequency ids' e.
Proof. intros Hp. unfold frequency. by rewrite Hp. Qed.

(** When one identifier is used strictly more often than every other, it
    is the favorite whatever the order in which the workouts are fetched:
    only a tie makes the choice depend on the order. *)
Theorem favorite_unique_maximum (ws ws' : list (Workout W)) (e : string) :
  ws ≡ₚ ws' ->
  e ∈ exerciseIdsInOrder ws ->
  (forall e', e' <> e ->
     frequency (exerciseIdsInOrder ws) e' < frequency (exerciseIdsInOrder ws) e) ->
  favoriteExerciseId ws = Some e /\ favoriteExerciseId ws' = Some e.
Proof.
  intros Hp Hin Hstrict.
  assert (Hids : exerciseIdsInOrder ws ≡ₚ exerciseIdsInOrder ws').
  { unfold exerciseIdsInOrder. by apply fmap_Permutation, allExercises_Permutation. }
  assert (Hany : forall vs : list (Workout W),
             exerciseIdsInOrder ws ≡ₚ exerciseIdsInOrder vs ->
             favoriteExerciseId vs = Some e).
  { intros vs Hvs.
    destruct (favoriteExerciseId vs) as [e' |] eqn:Hfav.
    - destruct (favoriteExerciseId_max _ _ Hfav) as [_ Hmax].
      destruct (decide (e' = e)) as [-> | Hne]; [done |].
      specialize (Hstrict _ Hne). specialize (Hmax e).
      rewrite <- !(frequency_Permutation _ _ _ Hvs) in Hmax. lia.
    - apply favoriteExerciseId_none_iff in Hfav.
      unfold exerciseIdsInOrder in Hvs. rewrite Hfav in Hvs.
      apply Permutation_nil_r in Hvs.
      unfold exerciseIdsInOrder in Hin. rewrite Hvs in Hin.
      by apply elem_of_nil in Hin. }
  split; [by apply Hany | by apply Hany].
Qed.

(** [favoriteExercise] is absent in exactly three cases: the history has
    no WorkoutExerciseRecord, the favorite identifier is the empty string,
    or no row of the exercise table carries the favorite identifier. *)
Theorem favoriteExercise_absent_iff (tzOffset now : Z) (exercises : list Exercise)
    (u : option User) (ws : list (Workout W)) :
  favoriteExercise (profile tzOffset now exercises u ws) = None <->
  allExercises ws = [] \/
  exists fid, favoriteExerciseId ws = Some fid /\
              (fid = EmptyString \/ Forall (fun e => ex_id e <> fid) exercises).
Proof.
  simpl. destruct (favoriteExerciseId ws) as [fid |] eqn:Hfav; simpl.
  - destruct (decide (fid = EmptyString)) as [Hempty | Hne].
    + split; [| done]. intros _. right. exists fid. by split; [| left].
    + split.
      * intros Hnone. right. exists fid. split; [done |]. right.
        apply Forall_forall. intros ex Hex Hid.
        unfold findUnique in Hnone.
        apply list_elem_of_In in Hex.
        pose proof (find_none _ _ Hnone ex Hex) as Hno. simpl in Hno.
        by apply bool_decide_eq_false in Hno.
      * intros [Hnil | (fid' & [= <-] & [Hempty | Hmissing])].
        -- apply favoriteExerciseId_none_iff in Hnil. congruence.
        -- done.
        -- by apply findUnique_none.
  - split; [| done]. intros _. left. by apply favoriteExerciseId_none_iff.
Qed.

End FavoriteOrder.

Lemma favorite_unique_maximum_witness :
  favoriteExerciseId
    (Examples.workoutAt "w0" 0 [Examples.oneExercise "squat" [Examples.oneSet 5 60]]
       :: Examples.twoWorkouts) = Some "squat" /\
  favoriteExerciseId
    (Examples.twoWorkouts
       ++ [Examples.workoutAt "w0" 0 [Examples.oneExercise "squat" [Examples.oneSet 5 60]]])
    = Some "squat".
Proof.
  apply favorite_unique_maximum.
  - apply Permutation_cons_append.
  - left.
  - intros e' Hne.
    destruct (decide (e' = "bench")) as [-> | Hne']; [vm_compute; reflexivity |].
    rewrite frequency_absent; [vm_compute; reflexivity |].
    intros Hin. cbn in Hin. rewrite !elem_of_cons in Hin.
    destruct Hin as [? | [? | [? | Hin]]]; try done.
    by apply elem_of_nil in Hin.
Defined.

(** * Properties of the workout controller *)

(** ** The exercise check of [createWorkout] *)

Lemma NoDup_fmap_filter {A B : Type} (f : A -> B) (P : A -> Prop)
    `{forall x, Decision (P x)} (l : list A) :
  NoDup (f <$> l) -> NoDup (f <$> filter P l).
Proof.
  induction l as [| x l IH]; simpl; [done |].
  rewrite NoDup_cons. intros [Hx Hnd].
  destruct (decide (P x)).
  - rewrite filter_cons_True by done. simpl. apply NoDup_cons. split; [| by apply IH].
    intros Hin. apply Hx.
    apply list_elem_of_fmap in Hin as (y & -> & Hy).
    apply list_elem_of_filter in Hy as [_ Hy]. by apply list_elem_of_fmap_2.
  - rewrite filter_cons_False by done. by apply IH.
Qed.

(** The comparison of the two lengths succeeds exactly when every listed
    identifier is in the exercise table and none is listed twice. *)
Lemma existingExercises_length (table : list Exercise) (exerciseIds : list string) :
  NoDup (ex_id <$> table) ->
  length (existingExercises table exerciseIds) = length exerciseIds <->
  NoDup exerciseIds /\
  forall i, i ∈ exerciseIds -> exists e, e ∈ table /\ ex_id e = i.
Proof.
  intros Htable. unfold existingExercises.
  set (found := ex_id <$> filter (fun e => ex_id e ∈ exerciseIds) table).
  assert (Hlen : length found = length (filter (fun e => ex_id e ∈ exerciseIds) table))
    by apply length_fmap.
  assert (Hnd : NoDup found) by by apply NoDup_fmap_filter.
  assert (Hfound : forall i, i ∈ found <->
            i ∈ exerciseIds /\ exists e, e ∈ table /\ ex_id e = i).
  { intros i. unfold found. rewrite list_elem_of_fmap. split.
    - intros (e & -> & He). apply list_elem_of_filter in He as [Hin He].
      split; [done |]. by exists e.
    - intros (Hin & e & He & <-). exists e. split; [done |].
      by apply list_elem_of_filter. }
  assert (Hsub : found ⊆+ exerciseIds).
  { apply NoDup_submseteq; [done |]. intros i Hi. by apply Hfound in Hi as [? _]. }
  rewrite <- Hlen. split.
  - intros Heq.
    assert (Hperm : found ≡ₚ exerciseIds)
      by (apply submseteq_length_Permutation; [done | lia]).
    split; [by rewrite <- Hperm |].
    intros i Hi. rewrite <- Hperm in Hi. by apply Hfound in Hi as [_ ?].
  - intros [Hids Hall].
    assert (Hsup : exerciseIds ⊆+ found).
    { apply NoDup_submseteq; [done |]. intros i Hi. apply Hfound. split; [done |].
      by apply Hall. }
    apply submseteq_length in Hsub, Hsup. lia.
Qed.

Section CreateWorkoutFacts.

Context {W : Type} {numW : Number W}.

Lemma hasNegativeSet_false (exercises : list (WorkoutExerciseRow W)) :
  hasNegativeSet exercises = false <->
  Forall (fun we =>
            Forall (fun s => 0 <= row_repetitions s /\
                             num_gt (num_of_int 0) (row_weight s) = false)
              (row_sets we))
    exercises.
Proof.
  unfold hasNegativeSet. induction exercises as [| we wes IH]; simpl.
  - split; [constructor | done].
  - rewrite orb_false_iff, IH, Forall_cons.
    assert (Hsets : existsb
              (fun set => (row_repetitions set <? 0)
                          || num_gt (num_of_int 0) (row_weight set))
              (row_sets we) = false <->
            Forall (fun s => 0 <= row_repetitions s /\
                             num_gt (num_of_int 0) (row_weight s) = false)
              (row_sets we)).
    { induction (row_sets we) as [| s ss IHs]; simpl.
      - split; [constructor | done].
      - rewrite !orb_false_iff, IHs, Forall_cons, Z.ltb_ge. tauto. }
    tauto.
Qed.


(** The newly stored row of an accepted request. *)
Lemma createWorkout_accepted (db : Db W) (userId : string) (body : CreateWorkoutBody W)
    (now : Z) (newId : string) :
  NoDup (ex_id <$> db_exercises db) ->
  acceptable db (Some userId) body ->
  exists d exercises joined,
    body_durationMinutes body = Some d /\ body_exercises body = Some exercises /\
    createWorkout db (Some userId) body now newId =
      (Create201
         {| row_id := newId; row_userId := userId; row_startedAt := now;
            row_durationMinutes := Some d; row_note := body_note body;
            row_workoutExercises := exercises |}
         joined,
       {| db_users := db_users db; db_exercises := db_exercises db;
          db_workouts := db_workouts db ++
            [ {| row_id := newId; row_userId := userId; row_startedAt := now;
                 row_durationMinutes := Some d; row_note := body_note body;
                 row_workoutExercises := exercises |} ] |}).
Proof.
  intros Htable (u & d & exercises & [= <-] & Hu & Hd & Hpos & Hex & Hne & Hsets & Hnd & Hall).
  exists d, exercises. eexists. split; [done |]. split; [done |].
  unfold createWorkout. simpl. rewrite decide_False by done. rewrite Hd, Hex.
  assert ((d =? 0) = false) as -> by lia.
  rewrite bool_decide_false by done. simpl.
  assert ((d <? 0) = false) as -> by lia.
  apply hasNegativeSet_false in Hsets. rewrite Hsets.
  assert (Hlen : length (existingExercises (db_exercises db) (map row_exerciseId exercises))
                 = length (map row_exerciseId exercises)).
  { apply existingExercises_length; [done |]. split; [done |].
    intros i Hi. apply list_elem_of_fmap in Hi as (we & -> & Hwe).
    rewrite Forall_forall in Hall. by apply Hall. }
  rewrite Hlen, Nat.eqb_refl. simpl. reflexivity.
Qed.

(** A request that is not acceptable is answered without a 201 and leaves
    the tables as they were. *)
Lemma createWorkout_rejected (db : Db W) (reqUser : option string)
    (body : CreateWorkoutBody W) (now : Z) (newId : string) :
  NoDup (ex_id <$> db_exercises db) ->
  acceptable db reqUser body \/
  (~ acceptable db reqUser body /\
   snd (createWorkout db reqUser body now newId) = db /\
   (fst (createWorkout db reqUser body now newId) = Create401 \/
    exists message, fst (createWorkout db reqUser body now newId) = Create400 message)).
Proof.
  intros Htable. unfold createWorkout.
  destruct reqUser as [userId |]; simpl.
  2: { right. split; [| by split; [| left]]. by intros (? & ? & ? & ? & _). }
  destruct (decide (userId = EmptyString)) as [Hu | Hu].
  { right. split; [| by split; [| left]].
    intros (? & ? & ? & [= <-] & ? & _). done. }
  destruct (body_durationMinutes body) as [d |] eqn:Hd.
  2: { right. split; [| by split; [| right; eexists]].
       intros (? & ? & ? & _ & _ & Hd' & _). congruence. }
  destruct (body_exercises body) as [exercises |] eqn:Hex.
  2: { right. split; [| by split; [| right; eexists]].
       intros (? & ? & ? & _ & _ & _ & _ & Hex' & _). congruence. }
  destruct (Z.eqb_spec d 0) as [Hd0 | Hd0]; simpl.
  { right. split; [| by split; [| right; eexists]].
    intros (? & ? & ? & _ & _ & Hd' & ? & _). rewrite Hd in Hd'.
    injection Hd' as <-. lia. }
  destruct (bool_decide (exercises = [])) eqn:Hnil.
  { right. split; [| by split; [| right; eexists]].
    apply bool_decide_eq_true in Hnil.
    intros (? & ? & ? & _ & _ & _ & _ & Hex' & ? & _). rewrite Hex in Hex'.
    injection Hex' as <-. done. }
  apply bool_decide_eq_false in Hnil.
  destruct (Z.ltb_spec d 0) as [Hneg | Hpos].
  { right. split; [| by split; [| right; eexists]].
    intros (? & ? & ? & _ & _ & Hd' & ? & _). rewrite Hd in Hd'.
    injection Hd' as <-. lia. }
  destruct (hasNegativeSet exercises) eqn:Hsets.
  { right. split; [| by split; [| right; eexists]].
    intros (? & ? & ? & _ & _ & _ & _ & Hex' & _ & Hok & _). rewrite Hex in Hex'.
    injection Hex' as <-. apply hasNegativeSet_false in Hok. congruence. }
  destruct (Nat.eqb_spec
              (length (existingExercises (db_exercises db) (map row_exerciseId exercises)))
              (length (map row_exerciseId exercises))) as [Hlen | Hlen]; simpl.
  - left. apply existingExercises_length in Hlen as [Hnd Hall]; [| done].
    exists userId, d, exercises.
    repeat split; try done; [lia | by apply hasNegativeSet_false |].
    apply Forall_forall. intros we Hwe. apply Hall. by apply list_elem_of_fmap_2.
  - right. split; [| by split; [| right; eexists]].
    intros (? & ? & ? & _ & _ & _ & _ & Hex' & _ & _ & Hnd & Hall). rewrite Hex in Hex'.
    injection Hex' as <-. apply Hlen. apply existingExercises_length; [done |]. split; [done |].
    intros i Hi. apply list_elem_of_fmap in Hi as (we & -> & Hwe).
    rewrite Forall_forall in Hall. by apply Hall.
Qed.

(** [createWorkout] answers 201 exactly for an authenticated request with
    a positive duration, at least one exercise, no negative repetition
    count or weight, and exercise identifiers that all exist in the
    exercise table and are pairwise different.  A duration of 0 and an
    exercise listed twice are refused. *)
Theorem createWorkout_accepts_iff (db : Db W) (reqUser : option string)
    (body : CreateWorkoutBody W) (now : Z) (newId : string) :
  NoDup (ex_id <$> db_exercises db) ->
  (exists workout joined,
     fst (createWorkout db reqUser body now newId) = Create201 workout joined) <->
  acceptable db reqUser body.
Proof.
  intros Htable. split.
  - intros (workout & joined & Hreply).
    destruct (createWorkout_rejected db reqUser body now newId Htable)
      as [Hok | (_ & _ & [H401 | [message H400]])]; [done | congruence | congruence].
  - intros Hok. pose proof Hok as (userId & _ & _ & -> & _).
    destruct (createWorkout_accepted db userId body now newId Htable Hok)
      as (d & exercises & joined & _ & _ & ->).
    by eexists _, _.
Qed.

(** A refused request leaves all tables as they were.  An accepted one
    leaves users and exercises alone and appends exactly one workout: it
    carries the generated identifier, belongs to the requester, starts at
    the server's clock and is well formed. *)
Theorem createWorkout_effect (db : Db W) (reqUser : option string)
    (body : CreateWorkoutBody W) (now : Z) (newId : string) :
  NoDup (ex_id <$> db_exercises db) ->
  let reply := fst (createWorkout db reqUser body now newId) in
  let db' := snd (createWorkout db reqUser body now newId) in
  db_users db' = db_users db /\
  db_exercises db' = db_exercises db /\
  match reply with
  | Create201 workout _ =>
      db_workouts db' = db_workouts db ++ [workout] /\
      row_id workout = newId /\
      reqUser = Some (row_userId workout) /\
      row_startedAt workout = now /\
      wellFormedRow (db_exercises db) workout
  | _ => db' = db
  end.
Proof.
  intros Htable.
  destruct (createWorkout_rejected db reqUser body now newId Htable)
    as [Hok | (_ & Hdb & [H401 | [message H400]])].
  - pose proof Hok as (userId & d' & ex' & -> & _ & Hd' & Hpos & Hex' & Hne & Hsets & Hnd & Hall).
    destruct (createWorkout_accepted db userId body now newId Htable Hok)
      as (d & exercises & joined & Hd & Hex & ->).
    simpl. rewrite Hd in Hd'. rewrite Hex in Hex'.
    injection Hd' as <-. injection Hex' as <-.
    repeat split; try done. by exists d.
  - cbv zeta. rewrite Hdb, H401. done.
  - cbv zeta. rewrite Hdb, H400. done.
Qed.

End CreateWorkoutFacts.

Lemma exerciseTable_NoDup : NoDup (ex_id <$> Requests.exerciseTable).
Proof.
  apply NoDup_cons. split; [| apply NoDup_singleton].
  intros Hin. apply list_elem_of_singleton in Hin. discriminate.
Qed.

Lemma benchAndSquat_acceptable (db : Db Z) (userId : string) :
  db_exercises db = Requests.exerciseTable ->
  userId <> EmptyString ->
  acceptable db (Some userId) Requests.benchAndSquat.
Proof.
  intros Htable Hu. eexists userId, 60, _.
  split; [done |]. split; [done |]. split; [done |]. split; [lia |].
  split; [done |]. split; [done |]. split; [| split].
  - repeat constructor; simpl; lia.
  - apply NoDup_cons. split; [| apply NoDup_singleton].
    intros Hin. apply list_elem_of_singleton in Hin. discriminate.
  - rewrite Htable. constructor; [| constructor; [| constructor]].
    + eexists. split; [left | done].
    + eexists. split; [right; left | done].
Qed.

Lemma createWorkout_accepts_iff_witness :
  exists workout joined,
    fst (createWorkout Requests.noWorkouts (Some "u1") Requests.benchAndSquat 1000 "w1")
    = Create201 workout joined.
Proof.
  apply (createWorkout_accepts_iff Requests.noWorkouts (Some "u1")
           Requests.benchAndSquat 1000 "w1" exerciseTable_NoDup).
  by apply benchAndSquat_acceptable.
Defined.

Lemma createWorkout_effect_witness :
  snd (createWorkout Requests.noWorkouts (Some "u1") Requests.zeroDuration 1000 "w1")
  = Requests.noWorkouts.
Proof.
  exact (proj2 (proj2 (createWorkout_effect Requests.noWorkouts (Some "u1")
                         Requests.zeroDuration 1000 "w1" exerciseTable_NoDup))).
Defined.

(** ** [deleteWorkout] *)

Section DeleteWorkoutFacts.

Context {W : Type} {numW : Number W}.

Lemma findWorkout_Some (db : Db W) (key : string) (w : WorkoutRow W) :
  findWorkout db key = Some w -> w ∈ db_workouts db /\ row_id w = key.
Proof.
  unfold findWorkout. intros Hfind. apply find_some in Hfind as [Hin Hid].
  split; [by apply list_elem_of_In | by apply bool_decide_eq_true in Hid].
Qed.

Lemma findWorkout_None (db : Db W) (key : string) :
  findWorkout db key = None <-> forall r, r ∈ db_workouts db -> row_id r <> key.
Proof.
  unfold findWorkout. induction (db_workouts db) as [| r rs IH]; simpl.
  - split; [| done]. intros _ r Hr. by apply elem_of_nil in Hr.
  - destruct (decide (row_id r = key)) as [Hid | Hid].
    + rewrite bool_decide_true by done. split; [done |].
      intros Hall. exfalso. apply (Hall r); [left | done].
    + rewrite bool_decide_false by done. rewrite IH. split.
      * intros Hall r' Hr'. apply elem_of_cons in Hr' as [-> | Hr']; [done | by apply Hall].
      * intros Hall r' Hr'. apply Hall. by right.
Qed.

(** With unique identifiers the row found under a key is the only row
    that carries the key. *)
Lemma findWorkout_unique (db : Db W) (w r : WorkoutRow W) :
  NoDup (row_id <$> db_workouts db) ->
  findWorkout db (row_id r) = Some w -> r ∈ db_workouts db -> r = w.
Proof.
  unfold findWorkout. induction (db_workouts db) as [| x rs IH]; simpl.
  - intros _ _ Hr. by apply elem_of_nil in Hr.
  - rewrite NoDup_cons. intros [Hx Hnd].
    destruct (decide (row_id x = row_id r)) as [Hid | Hid].
    + rewrite bool_decide_true by done. intros [= <-] Hr.
      apply elem_of_cons in Hr as [-> | Hr]; [done |].
      exfalso. apply Hx. rewrite Hid. by apply list_elem_of_fmap_2.
    + rewrite bool_decide_false by done. intros Hfind Hr.
      apply elem_of_cons in Hr as [-> | Hr]; [done | by apply IH].
Qed.

(** The two outcomes of [deleteWorkout]. *)
Lemma deleteWorkout_cases (db : Db W) (reqUser workoutId : option string) :
  (exists userId wid w,
     reqUser = Some userId /\ userId <> EmptyString /\
     workoutId = Some wid /\ wid <> EmptyString /\
     findWorkout db wid = Some w /\ row_userId w = userId /\
     deleteWorkout db reqUser workoutId =
       (Delete200 "Workout deleted successfully",
        {| db_users := db_users db; db_exercises := db_exercises db;
           db_workouts := filter (fun r => row_id r <> wid) (db_workouts db) |})) \/
  (snd (deleteWorkout db reqUser workoutId) = db /\
   (fst (deleteWorkout db reqUser workoutId) = Delete401 \/
    fst (deleteWorkout db reqUser workoutId)
      = Delete400 "Missing workoutId in request body" \/
    (fst (deleteWorkout db reqUser workoutId) = Delete404 "Workout not found" /\
     exists userId wid,
       reqUser = Some userId /\ workoutId = Some wid /\
       (findWorkout db wid = None \/
        exists w, findWorkout db wid = Some w /\ row_userId w <> userId)))).
Proof.
  unfold deleteWorkout.
  destruct reqUser as [userId |]; simpl; [| right; by split; [| left]].
  destruct (decide (userId = EmptyString)) as [Hu | Hu];
    [right; by split; [| left] |].
  destruct workoutId as [wid |]; simpl; [| right; by split; [| right; left]].
  destruct (decide (wid = EmptyString)) as [Hw | Hw];
    [right; by split; [| right; left] |].
  destruct (findWorkout db wid) as [w |] eqn:Hfind.
  - destruct (decide (row_userId w = userId)) as [Hown | Hown].
    + rewrite bool_decide_true by done. left. by exists userId, wid, w.
    + rewrite bool_decide_false by done. right. split; [done |]. right. right.
      split; [done |]. exists userId, wid. split; [done |]. split; [done |].
      right. by exists w.
  - right. split; [done |]. right. right. split; [done |].
    exists userId, wid. split; [done |]. split; [done |]. by left.
Qed.

(** [deleteWorkout] never adds a row and never touches users or
    exercises; with unique workout identifiers it keeps every workout that
    belongs to another user and every workout other than the one named in
    the request. *)
Theorem deleteWorkout_only_own (db : Db W) (reqUser workoutId : option string)
    (r : WorkoutRow W) :
  NoDup (row_id <$> db_workouts db) ->
  let db' := snd (deleteWorkout db reqUser workoutId) in
  db_users db' = db_users db /\
  db_exercises db' = db_exercises db /\
  (r ∈ db_workouts db' -> r ∈ db_workouts db) /\
  (r ∈ db_workouts db ->
   reqUser <> Some (row_userId r) \/ workoutId <> Some (row_id r) ->
   r ∈ db_workouts db').
Proof.
  intros Hnd.
  destruct (deleteWorkout_cases db reqUser workoutId)
    as [(userId & wid & w & -> & Hu & -> & Hw & Hfind & Hown & ->) | [-> _]];
    [| done].
  simpl. split; [done |]. split; [done |]. split.
  - intros Hr. by apply list_elem_of_filter in Hr as [_ ?].
  - intros Hr Hother. apply list_elem_of_filter. split; [| done].
    intros Hid. subst wid.
    assert (r = w) as -> by by apply (findWorkout_unique db).
    destruct Hother as [Hother | Hother]; [| done].
    apply Hother. by rewrite Hown.
Qed.

(** A 200 from [deleteWorkout] means that the named workout existed and
    belonged to the requester; afterwards no row carries that identifier
    and repeating the request is answered 404 without further change. *)
Theorem deleteWorkout_removes (db : Db W) (reqUser workoutId : option string)
    (message : string) :
  fst (deleteWorkout db reqUser workoutId) = Delete200 message ->
  let db' := snd (deleteWorkout db reqUser workoutId) in
  exists wid w,
    workoutId = Some wid /\ w ∈ db_workouts db /\ row_id w = wid /\
    reqUser = Some (row_userId w) /\
    db_workouts db' = filter (fun r => row_id r <> wid) (db_workouts db) /\
    findWorkout db' wid = None /\
    deleteWorkout db' reqUser workoutId = (Delete404 "Workout not found", db').
Proof.
  intros Hreply.
  destruct (deleteWorkout_cases db reqUser workoutId)
    as [(userId & wid & w & -> & Hu & -> & Hw & Hfind & Hown & Hdel)
       | [_ [H | [H | [H _]]]]]; try congruence.
  rewrite Hdel. simpl.
  apply findWorkout_Some in Hfind as [Hin Hid].
  assert (Hgone : findWorkout
            {| db_users := db_users db; db_exercises := db_exercises db;
               db_workouts := filter (fun r => row_id r <> wid) (db_workouts db) |}
            wid = None).
  { apply findWorkout_None. simpl. intros r Hr.
    by apply list_elem_of_filter in Hr as [? _]. }
  exists wid, w. repeat split; try done; [by rewrite Hown |].
  unfold deleteWorkout. simpl. rewrite !decide_False by done. by rewrite Hgone.
Qed.

(** For an authenticated request that names a workout, a workout of
    another user is answered exactly as a workout that does not exist:
    404 with the same message, and nothing changes. *)
Theorem deleteWorkout_foreign_as_missing (db missing : Db W) (userId wid : string)
    (w : WorkoutRow W) :
  userId <> EmptyString -> wid <> EmptyString ->
  findWorkout db wid = Some w -> row_userId w <> userId ->
  findWorkout missing wid = None ->
  deleteWorkout db (Some userId) (Some wid) = (Delete404 "Workout not found", db) /\
  fst (deleteWorkout db (Some userId) (Some wid))
    = fst (deleteWorkout missing (Some userId) (Some wid)).
Proof.
  intros Hu Hw Hfind Hown Hnone. unfold deleteWorkout. simpl.
  rewrite !decide_False by done. rewrite Hfind, Hnone.
  by rewrite bool_decide_false by done.
Qed.

End DeleteWorkoutFacts.

Lemma twoUsers_ids_NoDup : NoDup (row_id <$> db_workouts Requests.twoUsers).
Proof.
  apply NoDup_cons. split; [| apply NoDup_singleton].
  intros Hin. apply list_elem_of_singleton in Hin. discriminate.
Qed.

Lemma secondRow_stored : Requests.secondRow ∈ db_workouts Requests.twoUsers.
Proof. right. left. Qed.

Lemma deleteWorkout_only_own_witness :
  Requests.secondRow
    ∈ db_workouts (snd (deleteWorkout Requests.twoUsers (Some "u1") (Some "w2"))).
Proof.
  destruct (deleteWorkout_only_own Requests.twoUsers (Some "u1") (Some "w2")
              Requests.secondRow twoUsers_ids_NoDup) as (_ & _ & _ & Hkept).
  apply Hkept; [apply secondRow_stored | left; discriminate].
Defined.

Lemma deleteWorkout_removes_witness :
  exists wid w,
    Some "w2" = Some wid /\ w ∈ db_workouts Requests.twoUsers /\ row_id w = wid /\
    Some "u2" = Some (row_userId w) /\
    db_workouts (snd (deleteWorkout Requests.twoUsers (Some "u2") (Some "w2")))
      = filter (fun r => row_id r <> wid) (db_workouts Requests.twoUsers) /\
    findWorkout (snd (deleteWorkout Requests.twoUsers (Some "u2") (Some "w2"))) wid = None /\
    deleteWorkout (snd (deleteWorkout Requests.twoUsers (Some "u2") (Some "w2")))
      (Some "u2") (Some "w2")
    = (Delete404 "Workout not found",
       snd (deleteWorkout Requests.twoUsers (Some "u2") (Some "w2"))).
Proof.
  apply (deleteWorkout_removes Requests.twoUsers (Some "u2") (Some "w2")
           "Workout deleted successfully").
  reflexivity.
Defined.

Lemma deleteWorkout_foreign_as_missing_witness :
  fst (deleteWorkout Requests.twoUsers (Some "u1") (Some "w2"))
  = fst (deleteWorkout Requests.noWorkouts (Some "u1") (Some "w2")).
Proof.
  apply (deleteWorkout_foreign_as_missing Requests.twoUsers Requests.noWorkouts
           "u1" "w2" Requests.secondRow); [done | done | reflexivity | done | reflexivity].
Defined.

(** ** Sequences of requests *)

Section RequestSequences.

Context {W : Type} {numW : Number W}.

Lemma find_snoc_fresh (rs : list (WorkoutRow W)) (w : WorkoutRow W) :
  row_id w ∉ row_id <$> rs ->
  find (fun r => bool_decide (row_id r = row_id w)) (rs ++ [w]) = Some w /\
  filter (fun r => row_id r <> row_id w) (rs ++ [w]) = rs.
Proof.
  induction rs as [| r rs IH]; simpl; intros Hfresh.
  - rewrite bool_decide_true by done. split; [done |].
    by rewrite filter_cons_False, filter_nil by (intros Hne; by apply Hne).
  - apply not_elem_of_cons in Hfresh as [Hne Hfresh].
    destruct (IH Hfresh) as [Hfind Hfilter].
    rewrite bool_decide_false by done. split; [done |].
    rewrite filter_cons_True by done. by rewrite Hfilter.
Qed.

(** Deleting the workout that was just created restores the tables:
    after an accepted [createWorkout], the same user's [deleteWorkout] of
    the generated identifier answers 200 and leaves the tables as they were
    before the creation. *)
Theorem create_then_delete (db : Db W) (userId : string) (body : CreateWorkoutBody W)
    (now : Z) (newId : string) :
  NoDup (ex_id <$> db_exercises db) ->
  acceptable db (Some userId) body ->
  newId <> EmptyString ->
  newId ∉ row_id <$> db_workouts db ->
  deleteWorkout (snd (createWorkout db (Some userId) body now newId))
    (Some userId) (Some newId)
  = (Delete200 "Workout deleted successfully", db).
Proof.
  intros Htable Hok Hid Hfresh.
  pose proof Hok as (u & _ & _ & [= <-] & Hu & _).
  destruct (createWorkout_accepted db userId body now newId Htable Hok)
    as (d & exercises & joined & _ & _ & ->).
  set (w := {| row_id := newId; row_userId := userId; row_startedAt := now;
               row_durationMinutes := Some d; row_note := body_note body;
               row_workoutExercises := exercises |}).
  destruct (find_snoc_fresh (db_workouts db) w Hfresh) as [Hfind Hfilter].
  unfold deleteWorkout, findWorkout. simpl.
  rewrite !decide_False by done. simpl in Hfind, Hfilter.
  rewrite Hfind. simpl. rewrite bool_decide_true by done.
  rewrite Hfilter. by destruct db.
Qed.

Lemma after_tables (db : Db W) (req : Request W) :
  NoDup (ex_id <$> db_exercises db) ->
  db_users (after db req) = db_users db /\
  db_exercises (after db req) = db_exercises db.
Proof.
  intros Htable. destruct req as [reqUser body now newId | reqUser workoutId]; simpl.
  - destruct (createWorkout_rejected db reqUser body now newId Htable)
      as [Hok | (_ & -> & _)]; [| done].
    pose proof Hok as (userId & _ & _ & -> & _).
    by destruct (createWorkout_accepted db userId body now newId Htable Hok)
      as (d & exercises & joined & _ & _ & ->).
  - destruct (deleteWorkout_cases db reqUser workoutId)
      as [(userId & wid & w & _ & _ & _ & _ & _ & _ & ->) | [-> _]]; done.
Qed.

Lemma after_wellFormed (db : Db W) (req : Request W) :
  NoDup (ex_id <$> db_exercises db) ->
  freshIn db req ->
  NoDup (row_id <$> db_workouts db) ->
  Forall (wellFormedRow (db_exercises db)) (db_workouts db) ->
  NoDup (row_id <$> db_workouts (after db req)) /\
  Forall (wellFormedRow (db_exercises db)) (db_workouts (after db req)).
Proof.
  intros Htable Hfresh Hnd Hwf.
  destruct req as [reqUser body now newId | reqUser workoutId]; simpl in *.
  - destruct (createWorkout_rejected db reqUser body now newId Htable)
      as [Hok | (_ & -> & _)]; [| done].
    pose proof Hok as (userId & d' & ex' & -> & _ & Hd' & Hpos & Hex' & Hne & Hsets & Hids & Hall).
    destruct (createWorkout_accepted db userId body now newId Htable Hok)
      as (d & exercises & joined & Hd & Hex & ->).
    rewrite Hd in Hd'. rewrite Hex in Hex'. injection Hd' as <-. injection Hex' as <-.
    simpl. split.
    + rewrite fmap_app. apply NoDup_app. split; [done |].
      split; [| apply NoDup_singleton].
      intros x Hx Hx'. apply list_elem_of_singleton in Hx'. by subst x.
    + apply Forall_app. split; [done |]. apply Forall_singleton.
      repeat split; try done. by exists d.
  - destruct (deleteWorkout_cases db reqUser workoutId)
      as [(userId & wid & w & _ & _ & _ & _ & _ & _ & ->) | [-> _]]; [| done].
    simpl. split; [by apply NoDup_fmap_filter |].
    apply Forall_forall. intros r Hr. apply list_elem_of_filter in Hr as [_ Hr].
    rewrite Forall_forall in Hwf. by apply Hwf.
Qed.

(** Starting without workouts and with unique exercise identifiers, every
    sequence of [POST /workout] and [DELETE /workout] requests leaves the
    user and exercise tables untouched, keeps the workout identifiers
    unique and stores only well-formed workouts: a positive duration, at
    least one exercise, no negative repetition count or weight, and
    exercises that exist and are pairwise different within the workout. *)
Theorem reachable_wellFormed (db0 db : Db W) :
  reachable db0 db ->
  NoDup (ex_id <$> db_exercises db0) ->
  db_workouts db0 = [] ->
  db_users db = db_users db0 /\
  db_exercises db = db_exercises db0 /\
  NoDup (row_id <$> db_workouts db) /\
  Forall (wellFormedRow (db_exercises db0)) (db_workouts db).
Proof.
  intros Hreach Htable Hempty.
  induction Hreach as [| db req _ IH Hfresh].
  - rewrite Hempty. repeat split; constructor.
  - destruct IH as (Husers & Hexercises & Hnd & Hwf).
    rewrite <- Hexercises in Htable, Hwf.
    destruct (after_tables db req Htable) as [-> ->].
    destruct (after_wellFormed db req Htable Hfresh Hnd Hwf) as [Hnd' Hwf'].
    rewrite <- Hexercises. done.
Qed.

End RequestSequences.

(** ** What the profile shows for stored workouts *)

Lemma frequency_app (l1 l2 : list string) (e : string) :
  frequency (l1 ++ l2) e = frequency l1 e + frequency l2 e.
Proof. unfold frequency. rewrite filter_app, length_app. lia. Qed.

Lemma frequency_NoDup (l : list string) (e : string) :
  NoDup l -> frequency l e = if decide (e ∈ l) then 1 else 0.
Proof.
  induction 1 as [| x l Hx Hnd IH].
  - by rewrite decide_False by apply not_elem_of_nil.
  - change (x :: l) with ([x] ++ l). rewrite frequency_app, IH.
    unfold frequency. destruct (decide (x = e)) as [-> | Hne].
    + rewrite filter_cons_True by done. simpl.
      rewrite (decide_False (P := e ∈ l)) by done.
      by rewrite decide_True by left.
    + rewrite filter_cons_False by done. simpl.
      destruct (decide (e ∈ l)) as [Hin | Hout].
      * by rewrite decide_True by by right.
      * rewrite decide_False; [done |].
        intros Hin. apply elem_of_cons in Hin as [-> | Hin]; done.
Qed.

(** When no workout lists an exercise twice, the number of occurrences of
    an identifier is the number of workouts that contain it. *)
Lemma frequency_of_workouts {W : Type} (ws : list (Workout W)) (e : string) :
  Forall (fun w => NoDup (map exerciseId (workoutExercises w))) ws ->
  frequency (exerciseIdsInOrder ws) e
  = Z.of_nat (length (filter (fun w => e ∈ map exerciseId (workoutExercises w)) ws)).
Proof.
  unfold exerciseIdsInOrder, allExercises.
  induction 1 as [| w ws Hw _ IH]; simpl; [done |].
  rewrite map_app, frequency_app, IH, (frequency_NoDup _ _ Hw).
  destruct (decide (e ∈ map exerciseId (workoutExercises w))) as [Hin | Hout].
  - rewrite filter_cons_True by done. simpl. lia.
  - rewrite filter_cons_False by done. lia.
Qed.

Lemma findUnique_is_Some (table : list Exercise) (key : string) :
  (exists e, e ∈ table /\ ex_id e = key) ->
  exists ex, findUnique table key = Some ex /\ ex ∈ table.
Proof.
  intros (e & He & Hid).
  destruct (findUnique table key) as [ex |] eqn:Hfind.
  - exists ex. split; [done |]. by apply findUnique_some in Hfind as [? _].
  - exfalso. unfold findUnique in Hfind. apply list_elem_of_In in He.
    pose proof (find_none _ _ Hfind e He) as Hno. simpl in Hno.
    by apply bool_decide_eq_false in Hno.
Qed.

Lemma sumZ_nonneg (l : list Z) : Forall (fun x => 0 <= x) l -> 0 <= sumZ l.
Proof. unfold sumZ. induction 1; simpl; lia. Qed.

Section StoredProfiles.

Context {W : Type} {numW : Number W}.

Lemma selected_exercise_ids (r : WorkoutRow W) :
  map exerciseId (workoutExercises (selectForProfile r))
  = map row_exerciseId (row_workoutExercises r).
Proof. simpl. by rewrite map_map. Qed.

Lemma stored_duration (table : list Exercise) (rows : list (WorkoutRow W)) :
  Forall (wellFormedRow table) rows ->
  Z.of_nat (length rows)
  <= sumZ (map (fun w : Workout W => default 0 (durationMinutes w))
             (map selectForProfile rows)).
Proof.
  induction 1 as [| r rows ((d & Hd & Hpos) & _) _ IH]; simpl; [done |].
  rewrite Hd. simpl. lia.
Qed.

Lemma stored_reps_nonneg (table : list Exercise) (rows : list (WorkoutRow W)) :
  Forall (wellFormedRow table) rows ->
  Forall (fun x => 0 <= x) (map repetitions (allSets (map selectForProfile rows))).
Proof.
  unfold allSets, allExercises.
  induction 1 as [| r rows (_ & _ & Hsets & _) _ IH]; simpl; [constructor |].
  rewrite flat_map_app, map_app. apply Forall_app. split; [| done].
  induction Hsets as [| we wes Hwe _ IHwes]; simpl; [constructor |].
  rewrite map_app. apply Forall_app. split; [| done].
  induction Hwe as [| s ss [Hreps _] _ IHss]; simpl; constructor; done.
Qed.

Lemma stored_exercise_ids (table : list Exercise) (rows : list (WorkoutRow W)) (i : string) :
  Forall (wellFormedRow table) rows ->
  i ∈ exerciseIdsInOrder (map selectForProfile rows) ->
  exists e, e ∈ table /\ ex_id e = i.
Proof.
  unfold exerciseIdsInOrder, allExercises.
  induction 1 as [| r rows (_ & _ & _ & _ & Hex) _ IH]; simpl.
  - intros Hi. by apply elem_of_nil in Hi.
  - rewrite map_app. intros Hi. apply elem_of_app in Hi as [Hi | Hi]; [| by apply IH].
    rewrite map_map in Hi. simpl in Hi.
    apply list_elem_of_fmap in Hi as (we & -> & Hwe).
    rewrite Forall_forall in Hex. by apply Hex.
Qed.

Lemma stored_has_exercise (table : list Exercise) (rows : list (WorkoutRow W)) :
  Forall (wellFormedRow table) rows -> rows <> [] ->
  allExercises (map selectForProfile rows) <> [].
Proof.
  unfold allExercises. intros Hwf Hne.
  destruct Hwf as [| r rows (_ & Hex & _) _]; [done |]. simpl.
  destruct (row_workoutExercises r); [done |]. simpl. discriminate.
Qed.

Lemma stored_exercises_NoDup (table : list Exercise) (rows : list (WorkoutRow W)) :
  Forall (wellFormedRow table) rows ->
  Forall (fun w : Workout W => NoDup (map exerciseId (workoutExercises w)))
    (map selectForProfile rows).
Proof.
  induction 1 as [| r rows (_ & _ & _ & Hnd & _) _ IH]; simpl; constructor; [| done].
  by rewrite selected_exercise_ids.
Qed.

Lemma filter_selected (rows : list (WorkoutRow W)) (e : string) :
  length (filter (fun w : Workout W => e ∈ map exerciseId (workoutExercises w))
            (map selectForProfile rows))
  = length (filter (fun r => e ∈ map row_exerciseId (row_workoutExercises r)) rows).
Proof.
  induction rows as [| r rows IH]; [done |].
  cbn [map]. destruct (decide (e ∈ map row_exerciseId (row_workoutExercises r))) as [Hin | Hout].
  - rewrite !filter_cons_True by (by rewrite ?selected_exercise_ids). simpl. by rewrite IH.
  - rewrite !filter_cons_False by (by rewrite ?selected_exercise_ids). done.
Qed.

Lemma reachable_rows (db0 db : Db W) :
  reachable db0 db ->
  NoDup (ex_id <$> db_exercises db0) ->
  db_workouts db0 = [] ->
  db_exercises db = db_exercises db0 /\
  NoDup (row_id <$> db_workouts db) /\
  Forall (wellFormedRow (db_exercises db0)) (db_workouts db).
Proof.
  intros Hreach Htable Hempty.
  induction Hreach as [| db req _ (Hexercises & Hnd & Hwf) Hfresh].
  - rewrite Hempty. repeat split; constructor.
  - rewrite <- Hexercises in Htable, Hwf.
    destruct (after_tables db req Htable) as [_ ->].
    destruct (after_wellFormed db req Htable Hfresh Hnd Hwf) as [Hnd' Hwf'].
    by rewrite <- Hexercises.
Qed.

(** The workouts the profile query returns are stored rows of the user. *)
Lemma workoutsOf_wellFormed (db0 db : Db W) (userId : string) :
  reachable db0 db ->
  NoDup (ex_id <$> db_exercises db0) ->
  db_workouts db0 = [] ->
  workoutsOf db userId ≡ₚ filter (fun r => row_userId r = userId) (db_workouts db) /\
  Forall (wellFormedRow (db_exercises db0)) (workoutsOf db userId).
Proof.
  intros Hreach Htable Hempty.
  destruct (reachable_rows db0 db Hreach Htable Hempty) as (_ & _ & Hwf).
  assert (Hperm : workoutsOf db userId
                  ≡ₚ filter (fun r => row_userId r = userId) (db_workouts db))
    by apply merge_sort_Permutation.
  split; [done |]. rewrite Hperm. apply Forall_forall. intros r Hr.
  apply list_elem_of_filter in Hr as [_ Hr].
  rewrite Forall_forall in Hwf. by apply Hwf.
Qed.

(** The frequency map that [GET /me] builds over stored workouts.  For
    tables reached through [POST /workout] and [DELETE /workout] requests,
    [createWorkout] has let no workout list an exercise twice, so the map
    [exerciseFrequency] of the handler, built from the user's workouts as
    the profile query returns them, holds for each exercise identifier the
    number of the user's stored workouts that contain it, and no entry for
    an identifier that none of them contains. *)
Theorem frequency_counts_workouts (db0 db : Db W) (userId e : string) :
  reachable db0 db ->
  NoDup (ex_id <$> db_exercises db0) ->
  db_workouts db0 = [] ->
  let stored :=
    filter (fun r => e ∈ map row_exerciseId (row_workoutExercises r))
      (filter (fun r => row_userId r = userId) (db_workouts db)) in
  map_get
    (acc_exerciseFrequency (aggregate (map selectForProfile (workoutsOf db userId)))) e
  = match stored with
    | [] => None
    | _ :: _ => Some (Z.of_nat (length stored))
    end.
Proof.
  intros Hreach Htable Hempty stored.
  destruct (workoutsOf_wellFormed db0 db userId Hreach Htable Hempty) as [Hperm Hrows].
  set (ws := map selectForProfile (workoutsOf db userId)).
  destruct (exerciseFrequency_counted ws) as (Hget & _).
  rewrite Hget.
  assert (Hfreq : frequency (exerciseIdsInOrder ws) e = Z.of_nat (length stored)).
  { unfold ws. rewrite frequency_of_workouts by by eapply stored_exercises_NoDup.
    rewrite filter_selected. unfold stored. by rewrite Hperm. }
  rewrite Hfreq.
  destruct (decide (e ∈ exerciseIdsInOrder ws)) as [Hin | Hout].
  - apply frequency_present in Hin. rewrite Hfreq in Hin.
    destruct stored; [simpl in Hin; lia | done].
  - apply frequency_absent in Hout. rewrite Hfreq in Hout.
    destruct stored; [done | simpl in Hout; lia].
Qed.

(** For tables reached through the workout requests (any weights, exercise
    identifiers unique and not empty), [GET /me] of an authenticated user
    answers 200 with a profile in which [totalWorkouts] is the number of
    the user's stored workouts and at most [totalDuration], [totalReps] is
    not negative, and, as soon as the user has a workout, the favorite
    exercise is present and is a row of the exercise table. *)
Theorem reachable_profile (db0 db : Db W) (tzOffset now : Z) (userId : string) :
  reachable db0 db ->
  NoDup (ex_id <$> db_exercises db0) ->
  Forall (fun e => ex_id e <> EmptyString) (db_exercises db0) ->
  db_workouts db0 = [] ->
  userId <> EmptyString ->
  exists p,
    meOnDb tzOffset now db (Some userId) = Json200 p /\
    totalWorkouts p
      = Z.of_nat (length (filter (fun r => row_userId r = userId) (db_workouts db))) /\
    totalWorkouts p <= totalDuration p /\
    0 <= totalReps p /\
    (0 < totalWorkouts p ->
     exists ex, favoriteExercise p = Some ex /\ ex ∈ db_exercises db0).
Proof.
  intros Hreach Htable Hids Hempty Hu.
  destruct (reachable_rows db0 db Hreach Htable Hempty) as (Hexercises & _ & _).
  destruct (workoutsOf_wellFormed db0 db userId Hreach Htable Hempty) as [Hperm Hrows].
  unfold meOnDb, me. simpl. rewrite decide_False by done.
  eexists. split; [reflexivity |].
  set (rows := workoutsOf db userId) in *.
  simpl. rewrite length_map.
  split; [by rewrite Hperm |].
  split.
  { unfold sumDuration. rewrite fold_sumDuration.
    pose proof (stored_duration _ _ Hrows). lia. }
  split.
  { rewrite aggregate_closed. simpl. rewrite fold_repsStep.
    pose proof (sumZ_nonneg _ (stored_reps_nonneg _ _ Hrows)). lia. }
  intros Hpos.
  assert (Hne : rows <> []) by (intros Hnil; rewrite Hnil in Hpos; simpl in Hpos; lia).
  pose proof (stored_has_exercise _ _ Hrows Hne) as Hsome.
  destruct (favoriteExerciseId (map selectForProfile rows)) as [fid |] eqn:Hfav.
  2: { by apply favoriteExerciseId_none_iff in Hfav. }
  destruct (favoriteExerciseId_max _ _ Hfav) as [Hin _].
  pose proof (stored_exercise_ids _ _ _ Hrows Hin) as Hrow.
  assert (Hfid : fid <> EmptyString).
  { destruct Hrow as (e & He & <-). rewrite Forall_forall in Hids. by apply Hids. }
  simpl. rewrite decide_False by done. rewrite Hexercises.
  by apply findUnique_is_Some.
Qed.

End StoredProfiles.

Lemma create_then_delete_witness :
  deleteWorkout Requests.oneWorkout (Some "u1") (Some "w1")
  = (Delete200 "Workout deleted successfully", Requests.noWorkouts).
Proof.
  apply (create_then_delete Requests.noWorkouts "u1" Requests.benchAndSquat 1000 "w1").
  - apply exerciseTable_NoDup.
  - by apply benchAndSquat_acceptable.
  - done.
  - apply not_elem_of_nil.
Defined.

Lemma twoUsers_reachable : reachable Requests.noWorkouts Requests.twoUsers.
Proof.
  apply (reachable_request Requests.noWorkouts Requests.oneWorkout
           (PostWorkout (Some "u2") Requests.benchAndSquat 2000 "w2")).
  - apply (reachable_request Requests.noWorkouts Requests.noWorkouts
             (PostWorkout (Some "u1") Requests.benchAndSquat 1000 "w1")).
    + apply reachable_start.
    + apply not_elem_of_nil.
  - simpl. intros Hin. apply list_elem_of_singleton in Hin. discriminate.
Qed.

Lemma reachable_wellFormed_witness :
  Forall (wellFormedRow (db_exercises Requests.noWorkouts))
    (db_workouts Requests.twoUsers).
Proof.
  destruct (reachable_wellFormed Requests.noWorkouts Requests.twoUsers
              twoUsers_reachable exerciseTable_NoDup eq_refl) as (_ & _ & _ & Hwf).
  exact Hwf.
Defined.

Lemma twoUsers64_reachable : reachable Requests.noWorkouts64 Requests.twoUsers64.
Proof.
  apply (reachable_request Requests.noWorkouts64 Requests.oneWorkout64
           (PostWorkout (Some "u2") Requests.benchAndSquat64 2000 "w2")).
  - apply (reachable_request Requests.noWorkouts64 Requests.noWorkouts64
             (PostWorkout (Some "u1") Requests.benchAndSquat64 1000 "w1")).
    + apply reachable_start.
    + apply not_elem_of_nil.
  - simpl. intros Hin. apply list_elem_of_singleton in Hin. discriminate.
Qed.

Lemma frequency_counts_workouts_witness :
  map_get
    (acc_exerciseFrequency
       (aggregate (map selectForProfile (workoutsOf Requests.twoUsers64 "u1")))) "e1"
  = Some 1.
Proof.
  etrans.
  - apply (frequency_counts_workouts Requests.noWorkouts64 Requests.twoUsers64 "u1" "e1"
             twoUsers64_reachable exerciseTable_NoDup eq_refl).
  - reflexivity.
Defined.

Lemma reachable_profile_witness :
  exists p,
    meOnDb 0 5000 Requests.twoUsers64 (Some "u1") = Json200 p /\
    totalWorkouts p <= totalDuration p /\
    exists ex, favoriteExercise p = Some ex /\ ex ∈ db_exercises Requests.noWorkouts64.
Proof.
  destruct (reachable_profile Requests.noWorkouts64 Requests.twoUsers64 0 5000 "u1"
              twoUsers64_reachable exerciseTable_NoDup)
    as (p & Hme & Hcount & Hduration & _ & Hfav).
  - repeat constructor; discriminate.
  - reflexivity.
  - done.
  - exists p. split; [exact Hme |]. split; [exact Hduration |].
    apply Hfav. rewrite Hcount. reflexivity.
Defined.

(** ** [getWorkout]: pages *)

Lemma ceilDiv_gt (total limit page : Z) :
  0 < limit -> (page < ceilDiv total limit <-> page * limit < total).
Proof.
  intros Hlimit. unfold ceilDiv.
  pose proof (Z.div_mod (total + limit - 1) limit ltac:(lia)) as Hdm.
  pose proof (Z.mod_pos_bound (total + limit - 1) limit Hlimit) as Hmod.
  split; intros H; nia.
Qed.

Lemma pages_cover {A : Type} (l : list A) (m n : nat) :
  flat_map (fun k => take m (drop (k * m) l)) (seq 0 n) = take (n * m) l.
Proof.
  induction n as [| n IH]; [done |].
  rewrite seq_S, flat_map_app, IH. cbn [flat_map Nat.add]. rewrite app_nil_r.
  rewrite take_take_drop. f_equal. lia.
Qed.

#[local] Instance startedAtDesc_total {W : Type} : Total (@startedAtDesc W).
Proof. intros a b. unfold startedAtDesc. lia. Qed.

#[local] Instance startedAtDesc_trans {W : Type} : Transitive (@startedAtDesc W).
Proof. intros a b c. unfold startedAtDesc. lia. Qed.

(** Rows sorted most recent first that start at different instants are
    strictly ordered. *)
Lemma startedAtDesc_strict {W : Type} (rows : list (WorkoutRow W)) :
  StronglySorted startedAtDesc rows ->
  NoDup (row_startedAt <$> rows) ->
  StronglySorted (fun a b => row_startedAt a > row_startedAt b) rows.
Proof.
  induction 1 as [| r rows Hrows IH Hr]; intros Hnd; [constructor |].
  simpl in Hnd. apply NoDup_cons in Hnd as [Hfresh Hnd].
  constructor; [by apply IH |].
  rewrite Forall_forall in Hr |- *. intros r' Hr'.
  specialize (Hr r' Hr'). unfold startedAtDesc in Hr.
  assert (row_startedAt r <> row_startedAt r').
  { intros Heq. apply Hfresh. rewrite Heq. by apply list_elem_of_fmap_2. }
  lia.
Qed.

Section Pages.

Context {W : Type} {numW : Number W}.

Lemma workoutsOf_Permutation (db : Db W) (userId : string) :
  workoutsOf db userId ≡ₚ filter (fun r => row_userId r = userId) (db_workouts db).
Proof. apply merge_sort_Permutation. Qed.

(** The reply to a request that passes the checks. *)
Lemma getWorkout_valid (db : Db W) (userId : string) (parsedPage parsedLimit : option Z) :
  userId <> EmptyString ->
  1 <= default 1 parsedPage ->
  1 <= default 10 parsedLimit <= 100 ->
  getWorkout db (Some userId) parsedPage parsedLimit =
  Get200
    (map (viewOf db)
       (take (Z.to_nat (default 10 parsedLimit))
          (drop (Z.to_nat ((default 1 parsedPage - 1) * default 10 parsedLimit))
             (workoutsOf db userId))))
    {| currentPage := default 1 parsedPage;
       totalPages :=
         ceilDiv (Z.of_nat (length (filter (fun r => row_userId r = userId)
                                      (db_workouts db))))
           (default 10 parsedLimit);
       pg_totalWorkouts :=
         Z.of_nat (length (filter (fun r => row_userId r = userId) (db_workouts db)));
       pg_limit := default 10 parsedLimit;
       hasNextPage :=
         default 1 parsedPage
         <? ceilDiv (Z.of_nat (length (filter (fun r => row_userId r = userId)
                                         (db_workouts db))))
              (default 10 parsedLimit);
       hasPreviousPage := default 1 parsedPage >? 1 |}.
Proof.
  intros Hu Hpage Hlimit. unfold getWorkout. simpl.
  rewrite decide_False by done.
  destruct (Z.ltb_spec (default 1 parsedPage) 1); [lia |].
  destruct (Z.ltb_spec (default 10 parsedLimit) 1); [lia |].
  destruct (Z.gtb_spec (default 10 parsedLimit) 100); [lia |].
  reflexivity.
Qed.

(** A page holds only workouts of the requester, at most [limit] of them:
    as many as remain after the [(page - 1) * limit] workouts of the earlier
    pages.  A page beyond the last is an empty 200.  Missing or non-numeric
    parameters act as page 1 and limit 10. *)
Theorem getWorkout_page (db : Db W) (userId : string) (parsedPage parsedLimit : option Z) :
  userId <> EmptyString ->
  1 <= default 1 parsedPage ->
  1 <= default 10 parsedLimit <= 100 ->
  let page := default 1 parsedPage in
  let limit := default 10 parsedLimit in
  let total :=
    Z.of_nat (length (filter (fun r => row_userId r = userId) (db_workouts db))) in
  exists views pagination,
    getWorkout db (Some userId) parsedPage parsedLimit = Get200 views pagination /\
    pg_totalWorkouts pagination = total /\
    Z.of_nat (length views) = Z.min limit (Z.max 0 (total - (page - 1) * limit)) /\
    Forall (fun v => row_userId (view_row v) = userId /\
                     exists r, r ∈ db_workouts db /\ v = viewOf db r) views /\
    (totalPages pagination < page -> views = []).
Proof.
  intros Hu Hpage Hlimit page limit total.
  rewrite (getWorkout_valid db userId parsedPage parsedLimit Hu Hpage Hlimit).
  eexists _, _. split; [reflexivity |]. fold page limit total. simpl.
  assert (Hlen : Z.of_nat (length (workoutsOf db userId)) = total).
  { unfold total. by rewrite workoutsOf_Permutation. }
  assert (Hskip0 : 0 <= (page - 1) * limit) by (subst page limit; nia).
  split; [done |]. split; [| split].
  - rewrite length_map, length_take, length_drop.
    fold page limit. lia.
  - apply Forall_fmap, Forall_take, Forall_drop, Forall_forall.
    intros r Hr. rewrite workoutsOf_Permutation in Hr.
    apply list_elem_of_filter in Hr as [Hown Hr]. simpl.
    split; [done |]. by exists r.
  - intros Hbeyond.
    assert (Hskip : total <= (page - 1) * limit).
    { destruct (Z.le_gt_cases total ((page - 1) * limit)) as [? | Hgt]; [done |].
      apply (ceilDiv_gt total limit (page - 1)) in Hgt; [lia | lia]. }
    rewrite drop_ge by lia. by rewrite take_nil.
Qed.

(** [hasNextPage] is set exactly when workouts remain after this page,
    that is, when the following page is not empty; [hasPreviousPage] is set
    exactly on the pages after the first. *)
Theorem getWorkout_hasNextPage (db : Db W) (userId : string) (page limit : Z) :
  userId <> EmptyString ->
  1 <= page ->
  1 <= limit <= 100 ->
  exists views pagination,
    getWorkout db (Some userId) (Some page) (Some limit) = Get200 views pagination /\
    (hasNextPage pagination = true <->
     workoutsOfReply (getWorkout db (Some userId) (Some (page + 1)) (Some limit)) <> []) /\
    (hasNextPage pagination = true <-> page * limit < pg_totalWorkouts pagination) /\
    (hasPreviousPage pagination = true <-> 1 < page).
Proof.
  intros Hu Hpage Hlimit.
  rewrite (getWorkout_valid db userId (Some page) (Some limit) Hu Hpage Hlimit).
  rewrite (getWorkout_valid db userId (Some (page + 1)) (Some limit) Hu) by (simpl; lia).
  eexists _, _. split; [reflexivity |]. simpl.
  set (total := Z.of_nat (length (filter (fun r => row_userId r = userId) (db_workouts db)))).
  assert (Hlen : Z.of_nat (length (workoutsOf db userId)) = total).
  { unfold total. by rewrite workoutsOf_Permutation. }
  assert (Hnext : (page <? ceilDiv total limit) = true <-> page * limit < total).
  { rewrite Z.ltb_lt. apply ceilDiv_gt. lia. }
  split; [| split; [done | rewrite Z.gtb_ltb; apply Z.ltb_lt]].
  rewrite Hnext. replace (page + 1 - 1) with page by lia.
  rewrite <- length_zero_iff_nil, length_map, length_take, length_drop. lia.
Qed.

(** When the requester's workouts start at pairwise different instants (so
    that "most recent first" fixes their order), the pages 1 to
    [totalPages] of one limit, taken together, are all the workouts of the
    requester, each exactly once and most recent first. *)
Theorem getWorkout_pages_cover (db : Db W) (userId : string) (limit : Z) :
  userId <> EmptyString ->
  1 <= limit <= 100 ->
  NoDup (row_startedAt <$> filter (fun r => row_userId r = userId) (db_workouts db)) ->
  let total :=
    Z.of_nat (length (filter (fun r => row_userId r = userId) (db_workouts db))) in
  let sorted := workoutsOf db userId in
  flat_map
    (fun k => workoutsOfReply
                (getWorkout db (Some userId) (Some (Z.of_nat k + 1)) (Some limit)))
    (seq 0 (Z.to_nat (ceilDiv total limit)))
  = map (viewOf db) sorted /\
  sorted ≡ₚ filter (fun r => row_userId r = userId) (db_workouts db) /\
  StronglySorted (fun a b => row_startedAt a > row_startedAt b) sorted.
Proof.
  intros Hu Hlimit Hdistinct total sorted.
  split; [| split; [apply workoutsOf_Permutation |]].
  2: { apply startedAtDesc_strict;
         [apply (StronglySorted_merge_sort startedAtDesc) |].
       unfold sorted. by rewrite workoutsOf_Permutation. }
  set (n := Z.to_nat (ceilDiv total limit)).
  transitivity (map (viewOf db)
                  (flat_map (fun k => take (Z.to_nat limit)
                                        (drop (k * Z.to_nat limit) sorted))
                     (seq 0 n))).
  - induction (seq 0 n) as [| k ks IH]; simpl; [done |].
    rewrite map_app, <- IH. f_equal.
    rewrite (getWorkout_valid db userId _ _ Hu) by (simpl; lia). simpl.
    replace (Z.to_nat ((Z.of_nat k + 1 - 1) * limit)) with (k * Z.to_nat limit)%nat
      by nia.
    done.
  - rewrite pages_cover. f_equal. apply take_ge.
    assert (Hlen : Z.of_nat (length sorted) = total).
    { unfold total, sorted. by rewrite workoutsOf_Permutation. }
    assert (Hcover : total <= ceilDiv total limit * limit).
    { destruct (Z.le_gt_cases total (ceilDiv total limit * limit)) as [? | Hgt]; [done |].
      apply (ceilDiv_gt total limit) in Hgt; lia. }
    assert (0 <= ceilDiv total limit).
    { unfold ceilDiv. apply Z.div_pos; lia. }
    subst n. nia.
Qed.

End Pages.

Lemma getWorkout_page_witness :
  exists views pagination,
    getWorkout Requests.twoUsers (Some "u1") None None = Get200 views pagination /\
    pg_totalWorkouts pagination = 1 /\
    Z.of_nat (length views) = 1.
Proof.
  destruct (getWorkout_page Requests.twoUsers "u1" None None)
    as (views & pagination & Hreply & Htotal & Hlen & _);
    [done | simpl; lia | simpl; lia |].
  exists views, pagination. split; [exact Hreply |]. split; [exact Htotal | exact Hlen].
Defined.

Lemma getWorkout_hasNextPage_witness :
  exists views pagination,
    getWorkout Requests.twoUsers (Some "u1") (Some 1) (Some 10) = Get200 views pagination /\
    (hasNextPage pagination = true <-> 1 * 10 < pg_totalWorkouts pagination).
Proof.
  destruct (getWorkout_hasNextPage Requests.twoUsers "u1" 1 10)
    as (views & pagination & Hreply & _ & Hnext & _); [done | lia | lia |].
  exists views, pagination. split; [exact Hreply | exact Hnext].
Defined.

Lemma getWorkout_pages_cover_witness :
  flat_map
    (fun k => workoutsOfReply
                (getWorkout Requests.twoUsers (Some "u2") (Some (Z.of_nat k + 1)) (Some 1)))
    (seq 0 (Z.to_nat (ceilDiv 1 1)))
  = map (viewOf Requests.twoUsers) (workoutsOf Requests.twoUsers "u2").
Proof.
  destruct (getWorkout_pages_cover Requests.twoUsers "u2" 1) as (Hcover & _);
    [done | lia | apply NoDup_singleton |].
  exact Hcover.
Defined.

(** ** One user's requests and another user's view *)

Lemma filter_filter_implied {A : Type} (P Q : A -> Prop)
    `{forall x, Decision (P x)} `{forall x, Decision (Q x)} (l : list A) :
  (forall x, x ∈ l -> P x -> Q x) -> filter P (filter Q l) = filter P l.
Proof.
  induction l as [| x l IH]; intros Himp; [done |].
  assert (Hl : forall y, y ∈ l -> P y -> Q y) by (intros y Hy; apply Himp; by right).
  destruct (decide (Q x)) as [HQ | HQ].
  - rewrite (filter_cons_True Q) by done.
    destruct (decide (P x)).
    + rewrite !(filter_cons_True P) by done. by rewrite IH.
    + rewrite !(filter_cons_False P) by done. by apply IH.
  - rewrite (filter_cons_False Q) by done.
    rewrite (filter_cons_False P); [by apply IH |].
    intros HP. apply HQ, Himp; [left | done].
Qed.

Section Isolation.

Context {W : Type} {numW : Number W}.

Lemma viewOf_tables (db db' : Db W) (r : WorkoutRow W) :
  db_users db' = db_users db -> db_exercises db' = db_exercises db ->
  viewOf db' r = viewOf db r.
Proof. intros Hu He. unfold viewOf, findUser. by rewrite Hu, He. Qed.

(** The rows of another user are the same before and after a request. *)
Lemma after_other_rows (db : Db W) (req : Request W) (other : string) :
  NoDup (ex_id <$> db_exercises db) ->
  NoDup (row_id <$> db_workouts db) ->
  requester req <> Some other ->
  filter (fun r => row_userId r = other) (db_workouts (after db req))
  = filter (fun r => row_userId r = other) (db_workouts db).
Proof.
  intros Htable Hnd Hreq.
  destruct req as [reqUser body now newId | reqUser workoutId]; simpl in *.
  - destruct (createWorkout_rejected db reqUser body now newId Htable)
      as [Hok | (_ & -> & _)]; [| done].
    pose proof Hok as (userId & _ & _ & -> & _).
    destruct (createWorkout_accepted db userId body now newId Htable Hok)
      as (d & exercises & joined & _ & _ & ->).
    simpl. rewrite filter_app, filter_cons_False, filter_nil, app_nil_r; [done |].
    simpl. congruence.
  - destruct (deleteWorkout_cases db reqUser workoutId)
      as [(userId & wid & w & -> & _ & _ & _ & Hfind & Hown & ->) | [-> _]]; [| done].
    simpl. apply filter_filter_implied. intros r Hr Hother Hid. subst wid.
    assert (r = w) as -> by by apply (findWorkout_unique db).
    congruence.
Qed.

(** A [POST /workout] or [DELETE /workout] made for one user changes
    neither the pages [GET /workout] returns to another user nor the
    profile [GET /me] returns to that other user. *)
Theorem other_user_unaffected (db : Db W) (req : Request W) (other : string)
    (parsedPage parsedLimit : option Z) (tzOffset now : Z) :
  NoDup (ex_id <$> db_exercises db) ->
  NoDup (row_id <$> db_workouts db) ->
  requester req <> Some other ->
  getWorkout (after db req) (Some other) parsedPage parsedLimit
    = getWorkout db (Some other) parsedPage parsedLimit /\
  meOnDb tzOffset now (after db req) (Some other) = meOnDb tzOffset now db (Some other).
Proof.
  intros Htable Hnd Hreq.
  pose proof (after_other_rows db req other Htable Hnd Hreq) as Hrows.
  destruct (after_tables db req Htable) as [Husers Hexercises].
  assert (Hsorted : workoutsOf (after db req) other = workoutsOf db other).
  { unfold workoutsOf. by rewrite Hrows. }
  split.
  - unfold getWorkout, truthy_id.
    destruct (decide (other = EmptyString)); [done |].
    rewrite Hrows, Hsorted.
    destruct (default 1 parsedPage <? 1); [done |].
    destruct ((default 10 parsedLimit <? 1) || (default 10 parsedLimit >? 100));
      [done |].
    f_equal. apply map_ext. intros r. by apply viewOf_tables.
  - unfold meOnDb, findUser. simpl. by rewrite Hsorted, Husers, Hexercises.
Qed.


End Isolation.

Lemma other_user_unaffected_witness :
  getWorkout
    (after Requests.oneWorkout (PostWorkout (Some "u2") Requests.benchAndSquat 2000 "w2"))
    (Some "u1") None None
  = getWorkout Requests.oneWorkout (Some "u1") None None.
Proof.
  refine (proj1 (other_user_unaffected Requests.oneWorkout
                   (PostWorkout (Some "u2") Requests.benchAndSquat 2000 "w2")
                   "u1" None None 0 0 exerciseTable_NoDup _ _)).
  - apply NoDup_singleton.
  - discriminate.
Defined.


Lemma favoriteExercise_absent_iff_witness :
  favoriteExercise (profile 0 0 [] None Examples.twoWorkouts) = None.
Proof.
  apply (favoriteExercise_absent_iff 0 0 [] None Examples.twoWorkouts).
  right. exists "squat". split; [reflexivity |]. right. constructor.
Defined.
